(** * AMT client: a model of [amt/client.py] and its checked properties

    The client talks WS-Management to an Intel AMT endpoint.  The model
    below follows [client.py] function by function:

    - Python values, exceptions and outcomes;
    - the part of [xml.etree.ElementTree] the client relies on
      (element trees, [iter], [find] for a path [.//] followed by one
      tag, wildcards included; what ElementPath does with any other
      path is a parameter);
    - [_find_value] and [_return_value];
    - the world the client acts on (wall clock, TCP connects, HTTP
      exchanges, standard output) as explicit state with an event log;
    - [Client.__init__], [_awaken_amt], [post] and the public operations.

    Strings are Rocq strings: one [ascii] stands for one character, so
    the model covers text whose code points are below 256. *)

From Stdlib Require Import ZArith List String Ascii Bool Lia DecimalString
  DecimalPos.
Import ListNotations.
Open Scope string_scope.
Open Scope Z_scope.

Set Warnings "-register-all".

(** ** Python values, exceptions, outcomes *)

(** An [Element] as [ElementTree.fromstring] builds it: [tag] is in
    Clark notation ([{uri}local] for a qualified name), [text] is the
    character data before the first child ([None] when there is none).
    Attributes and tails are not read by the client and are left out. *)
Inductive Element : Type :=
| Elem (tag : string) (text : option string) (children : list Element).

(** The values the client returns or prints: [None], an [int], a [str].
    [VPretty root] is the [str] that minidom's [toprettyxml(indent="  ")]
    renders for the document whose tree is [root]. *)
Inductive PyVal : Type :=
| VNone
| VInt (n : Z)
| VStr (s : string)
| VPretty (root : Element).

(** The exceptions that can leave a client call.  [OSError] is what
    [socket.error] names; its [errno] attribute may be [None]
    ([socket.timeout]). *)
Inductive Exn : Type :=
| AttributeError (attr : string)
| KeyError (key : string)
| TypeError
| ValueError
| IndexError
| SyntaxError           (* ElementPath, for a path it cannot read *)
| ParseError            (* xml.etree.ElementTree.ParseError *)
| ExpatError            (* xml.parsers.expat.ExpatError, from minidom *)
| OSError (errno : option Z)
| RequestException      (* requests.exceptions.RequestException *)
| AMTTimeout.

Inductive Outcome (A : Type) : Type :=
| Return (a : A)
| Raise (e : Exn).
Arguments Return {A} a.
Arguments Raise {A} e.

Definition is_return {A} (o : Outcome A) : bool :=
  match o with Return _ => true | Raise _ => false end.

(** ** Python's [int(str)] for decimal literals

    Surrounding whitespace is dropped, one sign is allowed, digits may
    be grouped by single underscores. *)

Definition is_space (c : ascii) : bool :=
  let n := N_of_ascii c in
  ((9 <=? n) && (n <=? 13) || (28 <=? n) && (n <=? 32)
   || (n =? 133) || (n =? 160))%N.

Definition digit_of (c : ascii) : option Z :=
  let n := Z.of_N (N_of_ascii c) in
  if (48 <=? n) && (n <=? 57) then Some (n - 48) else None.

Fixpoint lstrip (s : list ascii) : list ascii :=
  match s with
  | c :: r => if is_space c then lstrip r else s
  | [] => []
  end.

Definition strip (s : list ascii) : list ascii :=
  rev (lstrip (rev (lstrip s))).

(** [digits acc seen s]: value of the digit string [s] continuing the
    accumulator; [seen] says that the previous character was a digit
    (an underscore needs a digit on both sides). *)
Fixpoint digits (acc : Z) (seen : bool) (s : list ascii) : option Z :=
  match s with
  | [] => if seen then Some acc else None
  | c :: r =>
      match digit_of c with
      | Some d => digits (10 * acc + d) true r
      | None =>
          if (Ascii.eqb c "_" && seen)%bool then
            match r with
            | [] => None
            | _ => digits acc false r
            end
          else None
      end
  end.

Definition py_int (s : string) : option Z :=
  match strip (list_ascii_of_string s) with
  | "-"%char :: r => option_map Z.opp (digits 0 false r)
  | "+"%char :: r => digits 0 false r
  | r => digits 0 false r
  end.

(** ** The part of ElementTree the client uses *)

Definition tag (e : Element) : string :=
  match e with Elem t _ _ => t end.
Definition text (e : Element) : option string :=
  match e with Elem _ x _ => x end.
Definition children (e : Element) : list Element :=
  match e with Elem _ _ k => k end.

(** [Element.iter(tag)]: the element and its descendants, in document
    order, that carry the tag. *)
Fixpoint iter (t : string) (e : Element) : list Element :=
  match e with
  | Elem t' _ kids =>
      (if String.eqb t' t then [e] else []) ++ flat_map (iter t) kids
  end.

(** All elements of the tree in document order. *)
Fixpoint preorder (e : Element) : list Element :=
  match e with
  | Elem _ _ kids => e :: flat_map preorder kids
  end.

(** The path [.//t] selects what [iter t] yields from the context
    element, the context element itself excluded. *)
Definition select_descendants (t : string) (root : Element) : list Element :=
  flat_map (iter t) (children root).

Fixpoint strip_prefix (p s : string) : option string :=
  match p, s with
  | EmptyString, _ => Some s
  | String a p', String b s' =>
      if Ascii.eqb a b then strip_prefix p' s' else None
  | String _ _, EmptyString => None
  end.

(** *** ElementPath (Python 3.8 and later)

    [Element.find(path)] hands the path to [ElementPath.find], which
    cuts it into tokens with [xpath_tokenizer_re].  For a path [.//]
    followed by text that starts with an opening brace the tokens are
    [.], [//] and then a tag: an optional [{...}] group up to the
    first closing brace, followed by at least one character, up to
    the first of [/ [ ] ( ) @ ! =] or white space. *)

Definition ends_tag (c : ascii) : bool :=
  is_space c
  || existsb (Ascii.eqb c) ["/"; "["; "]"; "("; ")"; "@"; "!"; "="]%char.

(** [[^/\[\]\(\)@!=\s]*] matches all of [s]. *)
Fixpoint tag_chars (s : string) : bool :=
  match s with
  | EmptyString => true
  | String c r => negb (ends_tag c) && tag_chars r
  end.

(** [braced s]: [s] cut at its first closing brace. *)
Fixpoint braced (s : string) : option (string * string) :=
  match s with
  | EmptyString => None
  | String c r =>
      if Ascii.eqb c "}" then Some (EmptyString, r)
      else
        match braced r with
        | Some (u, v) => Some (String c u, v)
        | None => None
        end
  end.

(** [one_tag rest]: the tokenizer reads all of [rest] as one tag.
    With a non-empty [{...}] group in front, the characters inside the
    braces are free and at least one character must follow; without
    it (the regular expression backs off when the group cannot be
    used) every character of [rest] has to be a tag character. *)
Definition one_tag (rest : string) : bool :=
  match rest with
  | String "{" r =>
      match braced r with
      | Some (String _ _, String c v) =>
          tag_chars (String c v) || tag_chars rest
      | _ => tag_chars rest
      end
  | _ => false
  end.

Definition starts_with (p s : string) : bool :=
  match strip_prefix p s with
  | Some _ => true
  | None => false
  end.

Definition reversed (s : string) : string :=
  string_of_list_ascii (rev (list_ascii_of_string s)).

Definition ends_with (p s : string) : bool :=
  starts_with (reversed p) (reversed s).

Fixpoint drop (n : nat) (s : string) : string :=
  match n, s with
  | S n', String _ r => drop n' r
  | _, _ => s
  end.

(** [_is_wildcard_tag]: [tag[:3] == '{*}' or tag[-2:] == '}*']. *)
Definition _is_wildcard_tag (t : string) : bool :=
  starts_with "{*}" t || ends_with "}*" t.

(** The test that [_prepare_tag] builds for a wildcard tag, applied to
    the tag of one element: [{*}*] takes every element, [{}*] the ones
    outside any namespace ([el_tag[0] != '{'], an [IndexError] on an
    empty tag), [{*}name] the name in any or no namespace, [{ns}*]
    every name of the namespace. *)
Definition _prepare_tag (t el_tag : string) : Outcome bool :=
  if String.eqb t "{*}*" then Return true
  else if String.eqb t "{}*" then
    match el_tag with
    | EmptyString => Raise IndexError
    | String c _ => Return (negb (Ascii.eqb c "{"))
    end
  else if starts_with "{*}" t then
    Return (String.eqb el_tag (drop 3 t) || ends_with (drop 2 t) el_tag)
  else
    Return (starts_with (reversed (drop 1 (reversed t))) el_tag).

(** [next(..., None)] over the selected elements: the elements are
    tested in document order up to the first that passes. *)
Fixpoint first_match (test : string -> Outcome bool) (l : list Element)
  : Outcome (option Element) :=
  match l with
  | [] => Return None
  | e :: l' =>
      match test (tag e) with
      | Raise x => Raise x
      | Return true => Return (Some e)
      | Return false => first_match test l'
      end
  end.

(** What ElementPath answers for the paths not read here: those that
    are more than [.//] and one tag (steps, predicates, parent
    references, a path it rejects). *)
Class ElementPath : Type := {
  other_path : Element -> string -> Outcome (option Element)
}.

(** [Element.find(path)].  For [.//] and one tag, [prepare_descendant]
    selects among the descendants of the context element: by the
    wildcard test, or by [iter] with the tag compared literally, a
    leading [{}] dropped. *)
Definition find {xpath : ElementPath} (root : Element) (path : string)
  : Outcome (option Element) :=
  match strip_prefix ".//" path with
  | Some rest =>
      if one_tag rest then
        if _is_wildcard_tag rest then
          first_match (_prepare_tag rest) (flat_map preorder (children root))
        else
          Return (hd_error
            (select_descendants
               (if starts_with "{}" rest then drop 2 rest else rest) root))
      else other_path root path
  | None => other_path root path
  end.

(** A response body, seen through the XML parser (expat, for both
    [ElementTree] and [minidom]): bytes it rejects, or the tree of a
    well-formed document. *)
Inductive Content : Type :=
| NotXml (raw : string)
| Xml (root : Element).

Definition fromstring (c : Content) : Outcome Element :=
  match c with
  | Xml root => Return root
  | NotXml _ => Raise ParseError
  end.

(** The query of [_find_value] and [_return_value]:
    ['.//{%(ns)s}%(item)s' % {'ns': ns, 'item': key}]. *)
Definition query (ns item : string) : string :=
  ".//{" ++ ns ++ "}" ++ item.

(** The qualified name [{ns}item] in Clark notation. *)
Definition qname (ns item : string) : string :=
  "{" ++ ns ++ "}" ++ item.

Definition _find_value {xpath : ElementPath}
  (content : Content) (ns key : string) : Outcome PyVal :=
  match fromstring content with
  | Raise e => Raise e
  | Return doc =>
      match find doc (query ns key) with
      | Raise e => Raise e
      | Return None => Raise (AttributeError "text")
      | Return (Some rv) =>
          match text rv with
          | Some s => Return (VStr s)
          | None => Return VNone
          end
      end
  end.

Definition _return_value {xpath : ElementPath}
  (content : Content) (ns : string) : Outcome Z :=
  match fromstring content with
  | Raise e => Raise e
  | Return doc =>
      match find doc (query ns "ReturnValue") with
      | Raise e => Raise e
      | Return None => Raise (AttributeError "text")
      | Return (Some rv) =>
          match text rv with
          | None => Raise TypeError
          | Some s =>
              match py_int s with
              | Some n => Return n
              | None => Raise ValueError
              end
          end
      end
  end.

(** ** The world the client acts on

    One HTTP exchange is a [Request] answered by a [Response] or by an
    exception of the transport.  [auth] holds the arguments of
    [HTTPDigestAuth]; [headers] holds the [headers=] argument of
    [requests.post] ([[]] when the call passes none). *)

Record Request : Type := {
  url : string;
  headers : list (string * string);
  auth : string * string;
  data : string
}.

Record Response : Type := {
  status_code : Z;
  content : Content
}.

Inductive ConnectResult : Type :=
| Connected
| ConnectError (errno : option Z).

Inductive HttpResult : Type :=
| Responded (r : Response)
| TransportError.

(** What the client does to the outside, in the order it does it. *)
Inductive Event : Type :=
| SocketOpened
| SocketClosed
| Connect (host : string) (port : Z) (timeout : Z)
| Sleep (micros : Z)
| Post (r : Request)
| Printed (line : PyVal).

(** The environment's side of a run: what the [n]-th call of
    [socket.create_connection] does and how many microseconds it takes,
    by how many microseconds the [n]-th [time.sleep] oversleeps, and how
    the [n]-th [requests.post] is answered. *)
Record Env : Type := {
  connect_result : nat -> ConnectResult;
  connect_micros : nat -> N;
  oversleep : nat -> N;
  http_result : nat -> HttpResult
}.

(** The state a run threads: the wall clock in microseconds, the number
    of connects, sleeps and posts made so far, and the events so far
    (oldest first). *)
Record World : Type := {
  now : Z;
  connects : nat;
  sleeps : nat;
  posts : nat;
  log : list Event
}.

Definition emit (e : Event) (w : World) : World :=
  {| now := now w; connects := connects w; sleeps := sleeps w;
     posts := posts w; log := log w ++ [e] |}.

(** A computation: from a world to an outcome and the world after it,
    or to nothing when a loop is cut off by its fuel. *)
Definition M (A : Type) : Type := World -> option (Outcome A * World).

Definition ret {A} (a : A) : M A := fun w => Some (Return a, w).
Definition raise {A} (e : Exn) : M A := fun w => Some (Raise e, w).
Definition out_of_fuel {A} : M A := fun _ => None.

Definition bind {A B} (m : M A) (k : A -> M B) : M B :=
  fun w =>
    match m w with
    | None => None
    | Some (Return a, w') => k a w'
    | Some (Raise e, w') => Some (Raise e, w')
    end.

(** [try: m except: h]. *)
Definition catch {A} (m : M A) (h : Exn -> M A) : M A :=
  fun w =>
    match m w with
    | None => None
    | Some (Return a, w') => Some (Return a, w')
    | Some (Raise e, w') => h e w'
    end.

(** Run [m], then [cleanup] whatever the outcome of [m], and pass that
    outcome on (the exit of a [with] block). *)
Definition finally {A} (m : M A) (cleanup : World -> World) : M A :=
  fun w =>
    match m w with
    | None => None
    | Some (o, w') => Some (o, cleanup w')
    end.

Definition lift {A} (o : Outcome A) : M A := fun w => Some (o, w).

Declare Scope m_scope.
Delimit Scope m_scope with m.
Notation "x <- m ;; k" := (bind m (fun x => k))
  (at level 100, m at next level, right associativity) : m_scope.
Notation "m ;; k" := (bind m (fun _ => k))
  (at level 100, right associativity) : m_scope.
Open Scope m_scope.

Definition decimal (n : Z) : string := NilZero.string_of_int (Z.to_int n).

Section Primitives.
Variable env : Env.

(** The world after a connect attempt, a sleep, a post. *)
Definition after_connect (host : string) (port timeout : Z) (w : World)
  : World :=
  {| now := now w + Z.of_N (connect_micros env (connects w));
     connects := S (connects w); sleeps := sleeps w; posts := posts w;
     log := log w ++ [Connect host port timeout] |}.

Definition after_sleep (micros : Z) (w : World) : World :=
  {| now := now w + micros + Z.of_N (oversleep env (sleeps w));
     connects := connects w; sleeps := S (sleeps w); posts := posts w;
     log := log w ++ [Sleep micros] |}.

Definition after_post (r : Request) (w : World) : World :=
  {| now := now w; connects := connects w; sleeps := sleeps w;
     posts := S (posts w); log := log w ++ [Post r] |}.

(** [datetime.now()]. *)
Definition datetime_now : M Z := fun w => Some (Return (now w), w).

(** [socket.socket(AF_INET, SOCK_STREAM)]. *)
Definition socket_socket : M unit :=
  fun w => Some (Return tt, emit SocketOpened w).

(** [socket.create_connection((host, port), timeout=timeout)]: the
    socket it returns is dropped by the caller, so only success or the
    error is kept. *)
Definition create_connection (host : string) (port timeout : Z) : M unit :=
  fun w =>
    match connect_result env (connects w) with
    | Connected => Some (Return tt, after_connect host port timeout w)
    | ConnectError errno =>
        Some (Raise (OSError errno), after_connect host port timeout w)
    end.

(** [time.sleep(micros / 10^6)]: at least the time asked for. *)
Definition time_sleep (micros : Z) : M unit :=
  fun w => Some (Return tt, after_sleep micros w).

(** [requests.post(url, headers=..., auth=HTTPDigestAuth(..), data=..)]. *)
Definition requests_post (r : Request) : M Response :=
  fun w =>
    match http_result env (posts w) with
    | Responded resp => Some (Return resp, after_post r w)
    | TransportError => Some (Raise RequestException, after_post r w)
    end.

Definition print (line : PyVal) : M unit :=
  fun w => Some (Return tt, emit (Printed line) w).
End Primitives.

(** [pp_xml(body)]: minidom parses the body and renders it indented. *)
Definition pp_xml (body : Content) : Outcome PyVal :=
  match body with
  | Xml root => Return (VPretty root)
  | NotXml _ => Raise ExpatError
  end.

(** ** Constants of the module *)

Definition SCHEMA_BASE : string :=
  "http://schemas.dmtf.org/wbem/wscim/1/cim-schema/2/".
Definition CIM_AssociatedPowerManagementService : string :=
  SCHEMA_BASE ++ "CIM_AssociatedPowerManagementService".
Definition CIM_PowerManagementService : string :=
  SCHEMA_BASE ++ "CIM_PowerManagementService".
Definition IPS_KVMRedirectionSettingData : string :=
  "http://intel.com/wbem/wscim/1/ips-schema/1/" ++
  "IPS_KVMRedirectionSettingData".

Definition AMT_PROTOCOL_PORT_MAP : list (string * Z) :=
  [("http", 16992); ("https", 16993)].

Fixpoint getitem (d : list (string * Z)) (k : string) : Outcome Z :=
  match d with
  | [] => Raise (KeyError k)
  | (k', v) :: d' => if String.eqb k' k then Return v else getitem d' k
  end.

(** [errno.ECONNREFUSED] (Linux). *)
Definition ECONNREFUSED : Z := 111.

Definition errno_is (errno : option Z) (code : Z) : bool :=
  match errno with
  | Some n => n =? code
  | None => false
  end.

(** The payload builder module [wsman] is imported by [client.py] and is
    not among the sources: its six functions are parameters of the
    model.  Each takes the endpoint URI (and one more string where the
    operation has a parameter) and gives the SOAP envelope as text. *)
Class Wsman : Type := {
  get_request : string -> string -> string;
  power_state_request : string -> string -> string;
  change_boot_order_request : string -> string -> string;
  enable_boot_config_request : string -> string;
  enable_remote_kvm : string -> string -> string;
  kvm_redirect : string -> string
}.

(** ** The client *)

(** The attributes of a [Client] instance.  [__init__] assigns [uri],
    [username] and [password].  [_awaken_amt] also reads [self.address]
    and [self.port]: they exist only when something assigned them on the
    instance after construction ([None]: no such attribute). *)
Record Client : Type := {
  uri : string;
  username : string;
  password : string;
  address : option string;
  port : option Z
}.

Definition getattr {A} (name : string) (field : option A) : M A :=
  match field with
  | Some v => ret v
  | None => raise (AttributeError name)
  end.

(** Truth value of an optional string argument: [None] and [''] are
    false. *)
Definition truthy (s : option string) : bool :=
  match s with
  | Some (String _ _) => true
  | _ => false
  end.

(** [s[:n]]. *)
Fixpoint slice_to (n : nat) (s : string) : string :=
  match n, s with
  | S n', String c s' => String c (slice_to n' s')
  | _, _ => EmptyString
  end.

Module Client.
Section Methods.
Context {wsman : Wsman} {xpath : ElementPath}.
Variable env : Env.

(** [Client.__init__(self, address, password, username, protocol)];
    the defaults of the last two are ['admin'] and ['http']. *)
Definition __init__ (address password username protocol : string)
  : Outcome Client :=
  match getitem AMT_PROTOCOL_PORT_MAP protocol with
  | Raise e => Raise e
  | Return port =>
      let uri := protocol ++ "://" ++ address ++ ":" ++
                 decimal port ++ "/wsman" in
      Return (Build_Client uri username password None None)
  end.

(** The [while] loop of [_awaken_amt]; [end_time] is in microseconds,
    [timeout] in seconds.  The result of one round of the [try] is
    [true] when its [return] was reached and [false] after the
    sleep of the [except] branch. *)
Fixpoint awaken_loop (fuel : nat) (self : Client) (timeout end_time : Z)
  : M PyVal :=
  match fuel with
  | O => out_of_fuel
  | S fuel' =>
      t <- datetime_now ;;
      if t <? end_time then
        returned <-
          catch
            (socket_socket ;;
             finally
               (host <- getattr "address" (address self) ;;
                p <- getattr "port" (port self) ;;
                create_connection env host p timeout)
               (emit SocketClosed) ;;
             ret true)
            (fun err =>
               match err with
               | OSError errno =>
                   if errno_is errno ECONNREFUSED
                   then time_sleep env 500000 ;; ret false
                   else raise err
               | _ => raise err
               end) ;;
        if returned : bool then ret VNone
        else awaken_loop fuel' self timeout end_time
      else raise AMTTimeout
  end.

(** [_awaken_amt(self, timeout)].  Every round that does not leave
    the loop sleeps half a second, so [2 * timeout] rounds and the
    last test of the clock are all the loop can make: that is the
    fuel ([awaken_amt_total] proves that it is never used up). *)
Definition _awaken_amt (self : Client) (timeout : Z) : M PyVal :=
  start_time <- datetime_now ;;
  let end_time := start_time + timeout * 1000000 in
  awaken_loop (S (Z.to_nat (2 * timeout))) self timeout end_time.

Definition post (self : Client) (payload : string) (ns : option string)
  : M PyVal :=
  _awaken_amt self 16 ;;
  resp <- requests_post env
            {| url := uri self;
               headers := [("content-type",
                            "application/soap+xml;charset=UTF-8")];
               auth := (username self, password self);
               data := payload |} ;;
  if status_code resp =? 200 then
    match ns with
    | Some (String c ns') =>
        rv <- lift (_return_value (content resp) (String c ns')) ;;
        if rv =? 0 then ret (VInt 0)
        else
          pretty <- lift (pp_xml (content resp)) ;;
          print pretty ;;
          ret VNone
    | _ => ret (VInt 0)
    end
  else
    print (VStr ("Status: " ++ decimal (status_code resp))) ;;
    pretty <- lift (pp_xml (content resp)) ;;
    print pretty ;;
    ret (VInt 1).

Definition power_on (self : Client) : M PyVal :=
  let payload := power_state_request (uri self) "on" in
  post self payload (Some CIM_PowerManagementService).

Definition power_off (self : Client) : M PyVal :=
  let payload := power_state_request (uri self) "off" in
  post self payload (Some CIM_PowerManagementService).

Definition power_cycle (self : Client) : M PyVal :=
  let payload := power_state_request (uri self) "reboot" in
  post self payload (Some CIM_PowerManagementService).

Definition set_next_boot (self : Client) (boot_device : string) : M PyVal :=
  let payload := change_boot_order_request (uri self) boot_device in
  post self payload None ;;
  let payload := enable_boot_config_request (uri self) in
  post self payload None ;;
  ret VNone.

Definition pxe_next_boot (self : Client) : M PyVal :=
  set_next_boot self "pxe" ;;
  ret VNone.

Definition power_status (self : Client) : M PyVal :=
  let payload :=
    get_request (uri self) CIM_AssociatedPowerManagementService in
  _awaken_amt self 16 ;;
  resp <- requests_post env
            {| url := uri self;
               headers := [];
               auth := (username self, password self);
               data := payload |} ;;
  value <- lift (_find_value (content resp)
                   CIM_AssociatedPowerManagementService "PowerState") ;;
  ret value.

(** The [if] statement that opens [enable_vnc(self, password)]: the
    password handed to the payload builder.  [None] stands for the
    argument left out. *)
Definition rfb_password (self : Client) (given : option string) : string :=
  match given with
  | Some p =>
      if negb (truthy given) || negb (Nat.eqb (String.length p) 8)
      then slice_to 8 (password self)
      else p
  | None => slice_to 8 (password self)
  end.

Definition enable_vnc (self : Client) (given : option string) : M PyVal :=
  let password := rfb_password self given in
  let payload := enable_remote_kvm (uri self) password in
  post self payload None ;;
  let payload := kvm_redirect (uri self) in
  post self payload None ;;
  ret VNone.

Definition vnc_status (self : Client) : M PyVal :=
  let payload := get_request (uri self) IPS_KVMRedirectionSettingData in
  _awaken_amt self 16 ;;
  resp <- requests_post env
            {| url := uri self;
               headers := [];
               auth := (username self, password self);
               data := payload |} ;;
  lift (pp_xml (content resp)).
End Methods.
End Client.

(** A payload builder to run the model with: each envelope is the name
    of the builder and its arguments. *)
#[local] Instance tagged_wsman : Wsman := {|
  get_request u s := "get_request(" ++ u ++ "," ++ s ++ ")";
  power_state_request u s := "power_state_request(" ++ u ++ "," ++ s ++ ")";
  change_boot_order_request u d :=
    "change_boot_order_request(" ++ u ++ "," ++ d ++ ")";
  enable_boot_config_request u := "enable_boot_config_request(" ++ u ++ ")";
  enable_remote_kvm u p := "enable_remote_kvm(" ++ u ++ "," ++ p ++ ")";
  kvm_redirect u := "kvm_redirect(" ++ u ++ ")"
|}.

(** An ElementPath to run the model with: it rejects every path that
    is more than [.//] and one tag. *)
#[local] Instance one_tag_paths : ElementPath := {|
  other_path _ _ := Raise SyntaxError
|}.

(** ** Vocabulary of the properties *)

(** The requests among some events, and the requests sent between two
    worlds of one run. *)
Fixpoint requests (l : list Event) : list Request :=
  match l with
  | [] => []
  | Post r :: l' => r :: requests l'
  | _ :: l' => requests l'
  end.

Definition sent (w w' : World) : list Request :=
  skipn (List.length (requests (log w))) (requests (log w')).

(** The connects among some events. *)
Fixpoint connects_of (l : list Event) : list (string * Z * Z) :=
  match l with
  | [] => []
  | Connect h p t :: l' => (h, p, t) :: connects_of l'
  | _ :: l' => connects_of l'
  end.

Definition has_header (k v : string) (r : Request) : bool :=
  existsb (fun kv => String.eqb (fst kv) k && String.eqb (snd kv) v)
          (headers r).

(** The request [post] sends for a payload. *)
Definition soap_request (self : Client) (payload : string) : Request :=
  {| url := uri self;
     headers := [("content-type", "application/soap+xml;charset=UTF-8")];
     auth := (username self, password self);
     data := payload |}.


(** What [post] makes of the response it got: the value it returns or
    the exception that leaves it. *)
Definition post_result {xpath : ElementPath} (ns : option string)
  (resp : Response) : Outcome PyVal :=
  if status_code resp =? 200 then
    match ns with
    | Some (String c ns') =>
        match _return_value (content resp) (String c ns') with
        | Raise e => Raise e
        | Return rv =>
            if rv =? 0 then Return (VInt 0)
            else match pp_xml (content resp) with
                 | Return _ => Return VNone
                 | Raise e => Raise e
                 end
        end
    | _ => Return (VInt 0)
    end
  else
    match pp_xml (content resp) with
    | Return _ => Return (VInt 1)
    | Raise e => Raise e
    end.

(** The lines [post] prints for the response it got. *)
Definition diagnostics {xpath : ElementPath} (ns : option string)
  (resp : Response) : list PyVal :=
  if status_code resp =? 200 then
    match ns with
    | Some (String c ns') =>
        match _return_value (content resp) (String c ns'),
              pp_xml (content resp) with
        | Return rv, Return pretty => if rv =? 0 then [] else [pretty]
        | _, _ => []
        end
    | _ => []
    end
  else
    VStr ("Status: " ++ decimal (status_code resp))
    :: match pp_xml (content resp) with
       | Return pretty => [pretty]
       | Raise _ => []
       end.

Definition printed (lines : list PyVal) (w : World) : World :=
  fold_left (fun w line => emit (Printed line) w) lines w.

(** One round of the probe on a client that has both attributes: the
    socket of the [with] block is opened, the connect is made, the
    [with] block is left. *)
Definition after_round (env : Env) (host : string) (p timeout : Z)
  (w : World) : World :=
  emit SocketClosed (after_connect env host p timeout (emit SocketOpened w)).

(** The proper descendants of the root in document order, and the first
    of them named [item] qualified by [ns]. *)
Definition descendants (root : Element) : list Element :=
  flat_map preorder (children root).

Definition named (ns item : string) (e : Element) : bool :=
  String.eqb (tag e) (qname ns item).

Definition first_named (ns item : string) (root : Element) : option Element :=
  hd_error (filter (named ns item) (descendants root)).

(** [literal_tag t]: ElementPath reads [t] as one tag and compares it
    with the tags of the elements as it stands: [t] is no wildcard
    ([{*}name], [{ns}*]) and does not start with [{}]. *)
Definition literal_tag (t : string) : bool :=
  one_tag t && negb (_is_wildcard_tag t) && negb (starts_with "{}" t).

(** No character of [s] is a closing brace. *)
Fixpoint no_brace (s : string) : bool :=
  match s with
  | EmptyString => true
  | String c r => negb (Ascii.eqb c "}") && no_brace r
  end.

(** A document with one place marked: [Hole] marks the root itself,
    [Below t x before c after] marks a place under the element with tag
    [t] and text [x], in the child that follows [before]. *)
Inductive Place : Type :=
| Hole
| Below (t : string) (x : option string) (before : list Element)
        (c : Place) (after : list Element).

Fixpoint plug (c : Place) (e : Element) : Element :=
  match c with
  | Hole => e
  | Below t x before c' after => Elem t x (before ++ plug c' e :: after)
  end.

(** The tags of the elements that precede the marked place in document
    order, the root first: on the way down, each element passed and
    what lies in its children on the left. *)
Fixpoint tags_before (c : Place) : list string :=
  match c with
  | Hole => []
  | Below t x before c' after =>
      t :: map tag (flat_map preorder before) ++ tags_before c'
  end.

(** The text ElementTree keeps for character data [v]: none for the
    empty string. *)
Definition parsed_text (v : string) : option string :=
  match v with
  | EmptyString => None
  | _ => Some v
  end.

(** [prefix_of p s]: [p] is what [s] starts with; [first_chars n p s]:
    [p] is the first [n] characters of [s], all of [s] when it has
    fewer. *)
Definition prefix_of (p s : string) : Prop := exists rest, s = p ++ rest.

Definition first_chars (n : nat) (p s : string) : Prop :=
  prefix_of p s /\ String.length p = Nat.min n (String.length s).

(** Two calls of [post] without a namespace, one after the other, and
    [None] returned: the shape of [set_next_boot] and [enable_vnc]. *)
Definition post_twice {wsman : Wsman} {xpath : ElementPath} (env : Env)
  (self : Client) (payload1 payload2 : string) : M PyVal :=
  Client.post env self payload1 None ;;
  Client.post env self payload2 None ;;
  ret VNone.

(** ** Sample runs *)

Definition world0 : World :=
  {| now := 0; connects := 0; sleeps := 0; posts := 0; log := [] |}.

(** A client as the constructor leaves it, and the same client with the
    two attributes of the reachability probe assigned on it. *)
Definition fresh_client : Client :=
  Build_Client "http://10.0.0.5:16992/wsman" "admin" "secret" None None.

Definition reachable_client : Client :=
  Build_Client "http://10.0.0.5:16992/wsman" "admin" "abcdefghij"
               (Some "10.0.0.5") (Some 16992).

Definition short_client : Client :=
  Build_Client "http://10.0.0.5:16992/wsman" "admin" "abc"
               (Some "10.0.0.5") (Some 16992).

Definition soap (body : list Element) : Element :=
  Elem "{http://www.w3.org/2003/05/soap-envelope}Envelope" None
    [Elem "{http://www.w3.org/2003/05/soap-envelope}Body" None body].

Definition return_value_doc (ns v : string) : Element :=
  soap [Elem (qname ns "RequestPowerStateChange_OUTPUT") None
          [Elem (qname ns "ReturnValue") (Some v) []]].

Definition power_state_doc (state : string) : Element :=
  soap [Elem (qname CIM_AssociatedPowerManagementService
                "CIM_AssociatedPowerManagementService") None
          [Elem (qname CIM_AssociatedPowerManagementService "PowerState")
             (Some state) []]].

(** Every connect is accepted after 2 ms; the posts are answered from
    the list, then with a transport error. *)
Definition env_answers (answers : list HttpResult) : Env :=
  {| connect_result := fun _ => Connected;
     connect_micros := fun _ => 2000%N;
     oversleep := fun _ => 0%N;
     http_result := fun n => nth n answers TransportError |}.

(** Every connect is refused after 1 ms. *)
Definition env_refused : Env :=
  {| connect_result := fun _ => ConnectError (Some ECONNREFUSED);
     connect_micros := fun _ => 1000%N;
     oversleep := fun _ => 300%N;
     http_result := fun _ => TransportError |}.

(** Every connect fails with EHOSTUNREACH (113) after 3 s. *)
Definition env_unreachable : Env :=
  {| connect_result := fun _ => ConnectError (Some 113);
     connect_micros := fun _ => 3000000%N;
     oversleep := fun _ => 0%N;
     http_result := fun _ => TransportError |}.

(** Status 200 with the given text in [ReturnValue]; a status with an
    HTML page (not well-formed XML) as body; a status with an empty
    SOAP envelope as body. *)
Definition ok_response (rv : string) : HttpResult :=
  Responded
    {| status_code := 200;
       content := Xml (return_value_doc CIM_PowerManagementService rv) |}.

Definition error_page (code : Z) : HttpResult :=
  Responded
    {| status_code := code;
       content :=
         NotXml "<html><body>Internal Server Error<br></body></html>" |}.

Definition fault_response (code : Z) : HttpResult :=
  Responded {| status_code := code; content := Xml (soap []) |}.

(** ** Vocabulary of the further properties *)

(** The lines printed among some events. *)
Fixpoint prints (l : list Event) : list PyVal :=
  match l with
  | [] => []
  | Printed line :: l' => line :: prints l'
  | _ :: l' => prints l'
  end.

(** What one round of the probe that ends in a refusal leaves in the
    log, [k] such rounds in a row, and a round that ends otherwise. *)
Definition refused_round (host : string) (p timeout : Z) : list Event :=
  [SocketOpened; Connect host p timeout; SocketClosed; Sleep 500000].

Fixpoint refused_rounds (k : nat) (host : string) (p timeout : Z)
  : list Event :=
  match k with
  | O => []
  | S k' => refused_round host p timeout ++ refused_rounds k' host p timeout
  end.

Definition last_round (host : string) (p timeout : Z) : list Event :=
  [SocketOpened; Connect host p timeout; SocketClosed].

(** The public operations of a client, to state what holds of all of
    them, and the call of one. *)
Inductive Operation : Type :=
| PowerOn
| PowerOff
| PowerCycle
| PxeNextBoot
| SetNextBoot (boot_device : string)
| PowerStatus
| EnableVnc (given : option string)
| VncStatus.

Definition call {wsman : Wsman} {xpath : ElementPath} (env : Env)
  (self : Client) (op : Operation) : M PyVal :=
  match op with
  | PowerOn => Client.power_on env self
  | PowerOff => Client.power_off env self
  | PowerCycle => Client.power_cycle env self
  | PxeNextBoot => Client.pxe_next_boot env self
  | SetNextBoot boot_device => Client.set_next_boot env self boot_device
  | PowerStatus => Client.power_status env self
  | EnableVnc given => Client.enable_vnc env self given
  | VncStatus => Client.vnc_status env self
  end.


(** The first payload an operation builds. *)
Definition first_payload {wsman : Wsman} (self : Client) (op : Operation)
  : string :=
  match op with
  | PowerOn => power_state_request (uri self) "on"
  | PowerOff => power_state_request (uri self) "off"
  | PowerCycle => power_state_request (uri self) "reboot"
  | PxeNextBoot => change_boot_order_request (uri self) "pxe"
  | SetNextBoot boot_device =>
      change_boot_order_request (uri self) boot_device
  | PowerStatus =>
      get_request (uri self) CIM_AssociatedPowerManagementService
  | EnableVnc given =>
      enable_remote_kvm (uri self) (Client.rfb_password self given)
  | VncStatus => get_request (uri self) IPS_KVMRedirectionSettingData
  end.

(** The second payload, for the operations that post twice. *)
Definition second_payload {wsman : Wsman} (self : Client) (op : Operation)
  : option string :=
  match op with
  | PxeNextBoot | SetNextBoot _ =>
      Some (enable_boot_config_request (uri self))
  | EnableVnc _ => Some (kvm_redirect (uri self))
  | _ => None
  end.

(** Every connect is refused twice, then accepted. *)
Definition env_wakes (answers : list HttpResult) : Env :=
  {| connect_result :=
       fun n => match n with
                | O | S O => ConnectError (Some ECONNREFUSED)
                | _ => Connected
                end;
     connect_micros := fun _ => 1000%N;
     oversleep := fun _ => 300%N;
     http_result := fun n => nth n answers TransportError |}.

(** * Properties *)

(** ** Element trees and the search by qualified name *)

Lemma Element_kids_ind (P : Element -> Prop) :
  (forall t x kids, Forall P kids -> P (Elem t x kids)) ->
  forall e, P e.
Proof.
  intros step. fix IH 1. intros [t x kids]. apply step.
  induction kids as [|k kids IHk]; constructor; [apply IH | exact IHk].
Qed.

Lemma flat_map_filter_pointwise {A B} (f g : A -> list B) (keep : B -> bool)
  (l : list A) :
  Forall (fun a => f a = filter keep (g a)) l ->
  flat_map f l = filter keep (flat_map g l).
Proof.
  induction 1 as [|a l Ha _ IH]; simpl; [reflexivity|].
  now rewrite filter_app, Ha, IH.
Qed.

(** [iter] keeps, in document order, the elements that carry the tag. *)
Lemma iter_filter (t : string) (e : Element) :
  iter t e = filter (fun x => String.eqb (tag x) t) (preorder e).
Proof.
  induction e as [t' x kids IH] using Element_kids_ind.
  cbn [iter preorder filter tag].
  rewrite (flat_map_filter_pointwise _ preorder _ kids IH).
  destruct (String.eqb t' t); reflexivity.
Qed.

Lemma select_descendants_filter (t : string) (root : Element) :
  select_descendants t root
  = filter (fun x => String.eqb (tag x) t) (descendants root).
Proof.
  unfold select_descendants, descendants.
  apply flat_map_filter_pointwise, Forall_forall.
  intros e _. apply iter_filter.
Qed.

(** The path the client builds is [.//] followed by the qualified
    name. *)
Lemma strip_prefix_query (ns item : string) :
  strip_prefix ".//" (query ns item) = Some (qname ns item).
Proof. reflexivity. Qed.

Lemma literal_tag_inv (t : string) :
  literal_tag t = true ->
  one_tag t = true /\ _is_wildcard_tag t = false
  /\ starts_with "{}" t = false.
Proof.
  unfold literal_tag. intros H.
  apply andb_true_iff in H. destruct H as [H Hstart].
  apply andb_true_iff in H. destruct H as [Hone Hwild].
  apply negb_true_iff in Hstart, Hwild. auto.
Qed.

(** For a name that ElementPath compares literally, the search is
    [iter] over the children of the root. *)
Lemma find_literal {xpath : ElementPath} (root : Element) (ns item : string) :
  literal_tag (qname ns item) = true ->
  find root (query ns item)
  = Return (hd_error (select_descendants (qname ns item) root)).
Proof.
  intros H. apply literal_tag_inv in H. destruct H as (Hone & Hwild & Hstart).
  unfold find. rewrite strip_prefix_query, Hone, Hwild, Hstart. reflexivity.
Qed.

(** It finds the first proper descendant with the qualified name. *)
Lemma find_first_named {xpath : ElementPath} (root : Element)
  (ns item : string) :
  literal_tag (qname ns item) = true ->
  find root (query ns item) = Return (first_named ns item root).
Proof.
  intros H. rewrite (find_literal _ _ _ H). unfold first_named.
  now rewrite select_descendants_filter.
Qed.

Lemma braced_no_brace (u v : string) :
  no_brace u = true -> braced (u ++ String "}" v) = Some (u, v).
Proof.
  induction u as [|c u IH]; intros H; [reflexivity|].
  cbn [no_brace] in H. apply andb_true_iff in H. destruct H as [Hc Hu].
  apply negb_true_iff in Hc. cbn [append braced]. rewrite Hc, (IH Hu).
  reflexivity.
Qed.

Lemma list_ascii_of_string_app (a b : string) :
  list_ascii_of_string (a ++ b)
  = (list_ascii_of_string a ++ list_ascii_of_string b)%list.
Proof.
  induction a as [|c a IH]; [reflexivity|]. cbn. now rewrite IH.
Qed.

Lemma string_of_list_ascii_app (a b : list ascii) :
  string_of_list_ascii (a ++ b)%list
  = string_of_list_ascii a ++ string_of_list_ascii b.
Proof.
  induction a as [|c a IH]; [reflexivity|]. cbn. now rewrite IH.
Qed.

Lemma reversed_app (a b : string) :
  reversed (a ++ b) = reversed b ++ reversed a.
Proof.
  unfold reversed.
  now rewrite list_ascii_of_string_app, rev_app_distr,
    string_of_list_ascii_app.
Qed.

Lemma reversed_cons (c : ascii) (s : string) :
  reversed (String c s) = reversed s ++ String c EmptyString.
Proof.
  unfold reversed. cbn [list_ascii_of_string rev].
  now rewrite string_of_list_ascii_app.
Qed.

Lemma no_brace_reversed (s : string) :
  no_brace s = true -> no_brace (reversed s) = true.
Proof.
  assert (Happ : forall a b,
             no_brace (a ++ b) = no_brace a && no_brace b).
  { induction a as [|c a IH]; intros b; [reflexivity|].
    cbn [append no_brace]. now rewrite IH, andb_assoc. }
  induction s as [|c s IH]; intros H; [reflexivity|].
  cbn [no_brace] in H. apply andb_true_iff in H. destruct H as [Hc Hs].
  rewrite reversed_cons, Happ, (IH Hs). cbn [no_brace]. now rewrite Hc.
Qed.

Lemma reversed_nonempty (s : string) :
  s <> EmptyString -> reversed s <> EmptyString.
Proof.
  destruct s as [|c s]; [contradiction|]. intros _.
  rewrite reversed_cons. destruct (reversed s); discriminate.
Qed.

Lemma reversed_single (s : string) (c : ascii) :
  reversed s = String c EmptyString -> s = String c EmptyString.
Proof.
  destruct s as [|a s]; [discriminate|]. rewrite reversed_cons.
  destruct s as [|b s].
  - cbn. intros H. now injection H as ->.
  - rewrite reversed_cons. destruct (reversed s) as [|d r]; cbn.
    + discriminate.
    + intros H. injection H as _ H. destruct r; discriminate H.
Qed.

Lemma append_associative (a b c : string) :
  (a ++ b) ++ c = a ++ (b ++ c).
Proof.
  induction a as [|x a IH]; [reflexivity|]. cbn. now rewrite IH.
Qed.

Lemma reversed_qname (ns item : string) :
  reversed (qname ns item)
  = reversed item ++ String "}" (reversed ns ++ "{").
Proof.
  unfold qname. cbn [append].
  rewrite reversed_cons, reversed_app, (reversed_cons "}" item).
  now rewrite !append_associative.
Qed.

(** The names ElementPath compares literally include every pair of a
    namespace and a local name that are not empty, are not [*], hold
    no closing brace and, for the local name, none of the characters
    that end a tag. *)
Lemma literal_tag_names (ns item : string) :
  ns <> EmptyString -> ns <> "*" -> no_brace ns = true ->
  item <> EmptyString -> item <> "*" -> no_brace item = true ->
  tag_chars item = true ->
  literal_tag (qname ns item) = true.
Proof.
  intros Hns Hstar Hbrace Hitem Histar Hibrace Hchars.
  unfold literal_tag, qname. cbn [append].
  assert (Hone : one_tag (String "{" (ns ++ String "}" item)) = true).
  { cbn [one_tag]. rewrite (braced_no_brace _ _ Hbrace).
    destruct ns as [|a ns]; [contradiction|].
    destruct item as [|b item]; [contradiction|].
    now rewrite Hchars. }
  assert (Hstart : starts_with "{}" (String "{" (ns ++ String "}" item))
                   = false).
  { destruct ns as [|a ns]; [contradiction|].
    cbn [no_brace] in Hbrace. apply andb_true_iff in Hbrace.
    destruct Hbrace as [Ha _]. apply negb_true_iff in Ha.
    unfold starts_with. cbn [append strip_prefix].
    rewrite Ascii.eqb_sym in Ha.
    change (Ascii.eqb "{" "{") with true. cbn iota. now rewrite Ha. }
  assert (Hfront : starts_with "{*}" (String "{" (ns ++ String "}" item))
                   = false).
  { destruct ns as [|a ns]; [contradiction|].
    unfold starts_with. cbn [append strip_prefix].
    change (Ascii.eqb "{" "{") with true. cbn iota.
    destruct (Ascii.eqb_spec "*" a) as [<-|_]; [|reflexivity].
    destruct ns as [|b ns]; [contradiction|].
    cbn [no_brace] in Hbrace. apply andb_true_iff in Hbrace.
    destruct Hbrace as [_ Hb]. apply andb_true_iff in Hb.
    destruct Hb as [Hb _]. apply negb_true_iff in Hb.
    cbn [append strip_prefix]. rewrite Ascii.eqb_sym in Hb. now rewrite Hb. }
  assert (Hback : ends_with "}*" (String "{" (ns ++ String "}" item))
                  = false).
  { unfold ends_with.
    change (String "{" (ns ++ String "}" item)) with (qname ns item).
    rewrite reversed_qname.
    pose proof (no_brace_reversed _ Hibrace) as Hr.
    pose proof (reversed_nonempty _ Hitem) as Hne.
    pose proof (reversed_single item "*") as Hone'.
    destruct (reversed item) as [|a r]; [contradiction|].
    unfold starts_with. change (reversed "}*") with "*}".
    cbn [append strip_prefix].
    destruct (Ascii.eqb_spec "*" a) as [<-|_]; [|reflexivity].
    destruct r as [|b r]; [exfalso; apply Histar, Hone'; reflexivity|].
    cbn [no_brace] in Hr. apply andb_true_iff in Hr. destruct Hr as [_ Hr].
    apply andb_true_iff in Hr. destruct Hr as [Hb _].
    apply negb_true_iff in Hb. cbn [append strip_prefix].
    rewrite Ascii.eqb_sym in Hb. now rewrite Hb. }
  unfold _is_wildcard_tag. now rewrite Hone, Hstart, Hfront, Hback.
Qed.

Lemma first_named_none (root : Element) (ns item : string) :
  (forall e, In e (descendants root) -> tag e <> qname ns item) ->
  first_named ns item root = None.
Proof.
  intros Hno. unfold first_named.
  replace (filter (named ns item) (descendants root)) with (@nil Element);
    [reflexivity|].
  symmetry. induction (descendants root) as [|e l IH]; [reflexivity|].
  simpl. unfold named at 1.
  destruct (String.eqb_spec (tag e) (qname ns item)) as [Heq|_].
  - exfalso. apply (Hno e); [now left | exact Heq].
  - apply IH. intros e' Hin. apply Hno. now right.
Qed.

Lemma first_named_sound (root : Element) (ns item : string) (e : Element) :
  first_named ns item root = Some e ->
  tag e = qname ns item /\ In e (descendants root).
Proof.
  unfold first_named. intros H.
  assert (Hin : In e (filter (named ns item) (descendants root))).
  { destruct (filter _ _); inversion H; subst; now left. }
  apply filter_In in Hin. destruct Hin as [Hin Hnamed].
  split; [now apply String.eqb_eq | exact Hin].
Qed.

(** C4, as amended.  Let [ns] be a namespace whose qualified name
    [{ns}ReturnValue] ElementPath compares literally.  [_return_value]
    on an XML body gives the integer that the text of the first proper
    descendant named [ReturnValue] under [ns] converts to; it raises
    when there is no such descendant (also when every [ReturnValue] of
    the document sits under another namespace), and when the text of
    that element is missing or is not an integer literal. *)
Theorem return_value_first_qualified {xpath : ElementPath} (root : Element)
  (ns : string) :
  literal_tag (qname ns "ReturnValue") = true ->
  (forall e s n,
      first_named ns "ReturnValue" root = Some e ->
      text e = Some s -> py_int s = Some n ->
      _return_value (Xml root) ns = Return n)
  /\ (first_named ns "ReturnValue" root = None ->
      is_return (_return_value (Xml root) ns) = false)
  /\ ((forall e ns', In e (descendants root) ->
                     tag e = qname ns' "ReturnValue" -> ns' <> ns) ->
      is_return (_return_value (Xml root) ns) = false)
  /\ (forall e,
      first_named ns "ReturnValue" root = Some e ->
      text e = None \/ (exists s, text e = Some s /\ py_int s = None) ->
      is_return (_return_value (Xml root) ns) = false).
Proof.
  intros Hlit.
  unfold _return_value. cbn [fromstring].
  rewrite (find_first_named _ _ _ Hlit).
  split; [|split; [|split]].
  - intros e s n -> -> ->. reflexivity.
  - intros ->. reflexivity.
  - intros Hother. rewrite first_named_none; [reflexivity|].
    intros e Hin Htag. now apply (Hother e ns Hin Htag).
  - intros e -> [-> | (s & -> & ->)]; reflexivity.
Qed.

Lemma return_value_first_qualified_witness :
  literal_tag (qname "urn:pm" "ReturnValue") = true
  /\ _return_value (Xml (return_value_doc "urn:pm" " 2 ")) "urn:pm" = Return 2
  /\ is_return (_return_value (Xml (return_value_doc "urn:other" "0")) "urn:pm")
     = false
  /\ is_return (_return_value (Xml (return_value_doc "urn:pm" "0x2")) "urn:pm")
     = false.
Proof.
  split; [reflexivity|]. split; [|split].
  - eapply (proj1 (return_value_first_qualified _ "urn:pm" eq_refl));
      reflexivity.
  - apply (proj1 (proj2 (return_value_first_qualified _ "urn:pm" eq_refl))).
    reflexivity.
  - eapply (proj2 (proj2 (proj2
              (return_value_first_qualified _ "urn:pm" eq_refl)))).
    + reflexivity.
    + right. eexists. split; reflexivity.
Defined.

(** C4 as stated fails for the namespace [*], which ElementPath reads
    as a wildcard: no element of the body is named [ReturnValue] under
    [*], the only [ReturnValue] sits under [urn:other], and the call
    returns its value. *)
Lemma return_value_first_qualified_counterexample :
  first_named "*" "ReturnValue" (return_value_doc "urn:other" "0") = None
  /\ _return_value (Xml (return_value_doc "urn:other" "0")) "*" = Return 0.
Proof. split; reflexivity. Qed.

(** ** Round trip of [_find_value] *)

Lemma flat_map_iter_nil (t : string) (l : list Element) :
  ~ In t (map tag (flat_map preorder l)) ->
  flat_map (iter t) l = [].
Proof.
  intros Hno.
  rewrite (flat_map_filter_pointwise (iter t) preorder
             (fun x => String.eqb (tag x) t)).
  - induction (flat_map preorder l) as [|e es IH]; [reflexivity|].
    simpl in *. destruct (String.eqb_spec (tag e) t) as [Heq|_].
    + exfalso. apply Hno. now left.
    + apply IH. intros Hin. apply Hno. now right.
  - apply Forall_forall. intros e _. apply iter_filter.
Qed.

Lemma iter_plug (t : string) (c : Place) (e : Element) :
  tag e = t ->
  ~ In t (tags_before c) ->
  exists rest, iter t (plug c e) = e :: rest.
Proof.
  intros Htag. induction c as [|t0 x before c IH after]; intros Hno.
  - destruct e as [t' y kids]. simpl in *. subst t'.
    rewrite String.eqb_refl. eexists. reflexivity.
  - cbn [plug iter tags_before] in *.
    destruct (String.eqb_spec t0 t) as [Heq|_].
    { exfalso. apply Hno. now left. }
    rewrite flat_map_app. cbn [flat_map app].
    rewrite flat_map_iter_nil.
    2:{ intros Hin. apply Hno. right. apply in_or_app. now left. }
    destruct IH as [rest Hrest].
    { intros Hin. apply Hno. right. apply in_or_app. now right. }
    rewrite Hrest. eexists. reflexivity.
Qed.

(** C5, as amended.  Let [ns] and [k] be such that ElementPath
    compares the qualified name [{ns}k] literally.  Embed a non-empty
    [v] as the text of an element named [k] under [ns] at a place below
    the root such that no element other than the root that precedes the
    place in document order has that name: [_find_value] with [ns] and
    [k] returns exactly [v]. *)
Theorem find_value_round_trip {xpath : ElementPath} (v ns k : string)
  (c : Place) (kids : list Element) :
  literal_tag (qname ns k) = true ->
  v <> "" ->
  c <> Hole ->
  ~ In (qname ns k) (tl (tags_before c)) ->
  _find_value (Xml (plug c (Elem (qname ns k) (parsed_text v) kids))) ns k
  = Return (VStr v).
Proof.
  intros Hlit Hv Hc Hno. destruct c as [|t x before c after]; [contradiction|].
  unfold _find_value. cbn [fromstring]. rewrite (find_literal _ _ _ Hlit).
  cbn [plug].
  unfold select_descendants. cbn [children].
  cbn [tags_before tl] in Hno.
  rewrite flat_map_app. cbn [flat_map app].
  rewrite flat_map_iter_nil.
  2:{ intros Hin. apply Hno. apply in_or_app. now left. }
  destruct (iter_plug (qname ns k) c
              (Elem (qname ns k) (parsed_text v) kids)) as [rest Hrest].
  { reflexivity. }
  { intros Hin. apply Hno. apply in_or_app. now right. }
  unfold qname in Hrest. cbn in Hrest. cbn. rewrite Hrest. cbn.
  destruct v; [contradiction|reflexivity].
Qed.

Lemma find_value_round_trip_witness :
  _find_value
    (Xml (plug (Below "{urn:soap}Envelope" None
                  [Elem "{urn:soap}Header" None
                     [Elem "{urn:other}PowerState" (Some "8") []]]
                  (Below "{urn:soap}Body" None [] Hole [])
                  [])
               (Elem (qname "urn:apm" "PowerState") (parsed_text "2") [])))
    "urn:apm" "PowerState"
  = Return (VStr "2").
Proof.
  apply find_value_round_trip.
  - reflexivity.
  - discriminate.
  - discriminate.
  - cbn. intros [H|[H|[H|[]]]]; discriminate H.
Defined.

(** C5 as stated fails: an element that is the root of the document is
    not found; an earlier element of the same name is returned in place
    of the embedded one; an element without character data gives
    [None], not the empty string; and for the namespace [*], which
    ElementPath reads as a wildcard, an earlier element of the same
    local name under another namespace is returned. *)
Lemma find_value_round_trip_counterexample :
  _find_value (Xml (plug Hole (Elem (qname "urn:apm" "PowerState")
                                    (parsed_text "2") [])))
    "urn:apm" "PowerState"
  = Raise (AttributeError "text")
  /\ _find_value
       (Xml (plug (Below "{urn:soap}Body" None
                     [Elem (qname "urn:apm" "PowerState") (Some "8") []]
                     Hole [])
                  (Elem (qname "urn:apm" "PowerState") (parsed_text "2") [])))
       "urn:apm" "PowerState"
     = Return (VStr "8")
  /\ _find_value
       (Xml (plug (Below "{urn:soap}Body" None [] Hole [])
                  (Elem (qname "urn:apm" "PowerState") (parsed_text "") [])))
       "urn:apm" "PowerState"
     = Return VNone
  /\ _find_value
       (Xml (plug (Below "r" None
                     [Elem (qname "urn:other" "K") (Some "8") []]
                     Hole [])
                  (Elem (qname "*" "K") (parsed_text "2") [])))
       "*" "K"
     = Return (VStr "8").
Proof. repeat split. Qed.

(** ** The reachability probe *)

Section Probe.
Context {wsman : Wsman}.
Variable env : Env.
Variable self : Client.

(** One round of the loop, case by case. *)
Lemma awaken_loop_round (f : nat) (timeout end_time : Z) (w : World) :
  Client.awaken_loop env (S f) self timeout end_time w =
  if now w <? end_time then
    match address self, port self with
    | None, _ =>
        Some (Raise (AttributeError "address"),
              emit SocketClosed (emit SocketOpened w))
    | Some _, None =>
        Some (Raise (AttributeError "port"),
              emit SocketClosed (emit SocketOpened w))
    | Some h, Some p =>
        match connect_result env (connects w) with
        | Connected => Some (Return VNone, after_round env h p timeout w)
        | ConnectError errno =>
            if errno_is errno ECONNREFUSED then
              Client.awaken_loop env f self timeout end_time
                (after_sleep env 500000 (after_round env h p timeout w))
            else
              Some (Raise (OSError errno), after_round env h p timeout w)
        end
    end
  else Some (Raise AMTTimeout, w).
Proof.
  cbn [Client.awaken_loop].
  unfold bind at 1. unfold datetime_now at 1.
  destruct (now w <? end_time); [|reflexivity].
  unfold bind, catch, finally, socket_socket, getattr, create_connection,
    ret, raise, after_round.
  destruct (address self) as [h|]; [|reflexivity].
  destruct (port self) as [p|]; [|reflexivity].
  cbn [connects emit].
  destruct (connect_result env (connects w)) as [|errno]; [reflexivity|].
  destruct (errno_is errno ECONNREFUSED); reflexivity.
Qed.

Lemma requests_app (l1 l2 : list Event) :
  requests (l1 ++ l2) = (requests l1 ++ requests l2)%list.
Proof.
  induction l1 as [|e l1 IH]; [reflexivity|].
  destruct e; simpl; now rewrite IH.
Qed.

Lemma requests_after_round (h : string) (p timeout : Z) (w : World) :
  requests (log (after_round env h p timeout w)) = requests (log w).
Proof.
  unfold after_round, after_connect, emit. cbn [log].
  rewrite !requests_app. cbn. now rewrite !app_nil_r.
Qed.

(** The loop never runs past the fuel that the remaining time asks
    for: half a second goes by in every round that continues. *)
Lemma awaken_loop_total (timeout end_time : Z) (f : nat) (w : World) :
  end_time - now w <= 500000 * Z.of_nat f ->
  exists r, Client.awaken_loop env (S f) self timeout end_time w = Some r.
Proof.
  revert w. induction f as [|f IH]; intros w Hleft;
    rewrite awaken_loop_round.
  - destruct (Z.ltb_spec (now w) end_time); [lia|eauto].
  - destruct (now w <? end_time); [|eauto].
    destruct (address self) as [h|]; [|eauto].
    destruct (port self) as [p|]; [|eauto].
    destruct (connect_result env (connects w)) as [|errno]; [eauto|].
    destruct (errno_is errno ECONNREFUSED); [|eauto].
    apply IH. cbn [now after_sleep after_round after_connect emit]. lia.
Qed.

(** What every finished run of the loop satisfies: the clock did not
    go back, no request was posted, a timeout is raised only at or
    past the deadline, and the loop returns only [None], on a client
    that has both attributes. *)
Lemma awaken_loop_facts (timeout end_time : Z) (f : nat) (w : World)
  (o : Outcome PyVal) (w' : World) :
  Client.awaken_loop env f self timeout end_time w = Some (o, w') ->
  now w <= now w'
  /\ posts w' = posts w
  /\ requests (log w') = requests (log w)
  /\ (o = Raise AMTTimeout -> end_time <= now w')
  /\ (is_return o = true ->
      o = Return VNone /\ address self <> None /\ port self <> None).
Proof.
  revert w. induction f as [|f IH]; intros w; [discriminate|].
  rewrite awaken_loop_round.
  destruct (Z.ltb_spec (now w) end_time) as [Hlt|Hge].
  2:{ intros [= <- <-]. repeat split; try lia; discriminate. }
  destruct (address self) as [h|].
  2:{ intros [= <- <-]. cbn. rewrite !requests_app. cbn.
      rewrite !app_nil_r. repeat split; try lia; discriminate. }
  destruct (port self) as [p|].
  2:{ intros [= <- <-]. cbn. rewrite !requests_app. cbn.
      rewrite !app_nil_r. repeat split; try lia; discriminate. }
  destruct (connect_result env (connects w)) as [|errno].
  { intros [= <- <-]. rewrite requests_after_round. cbn.
    repeat split; try lia; discriminate. }
  destruct (errno_is errno ECONNREFUSED).
  2:{ intros [= <- <-]. rewrite requests_after_round. cbn.
      repeat split; try lia; discriminate. }
  intros Hrun. apply IH in Hrun.
  destruct Hrun as (Hnow & Hposts & Hreq & Htimeout & Hret).
  cbn [now posts after_sleep after_round after_connect emit] in Hnow, Hposts.
  unfold after_sleep in Hreq. cbn [log] in Hreq.
  rewrite requests_app, requests_after_round in Hreq. cbn in Hreq.
  rewrite app_nil_r in Hreq.
  split; [lia|]. split; [lia|]. split; [assumption|].
  split; assumption.
Qed.

(** [_awaken_amt] always comes to an end. *)
Lemma awaken_amt_total (timeout : Z) (w : World) :
  exists r, Client._awaken_amt env self timeout w = Some r.
Proof.
  unfold Client._awaken_amt, bind, datetime_now.
  apply awaken_loop_total. lia.
Qed.

Lemma awaken_amt_facts (timeout : Z) (w : World)
  (o : Outcome PyVal) (w' : World) :
  Client._awaken_amt env self timeout w = Some (o, w') ->
  now w <= now w'
  /\ posts w' = posts w
  /\ requests (log w') = requests (log w)
  /\ (o = Raise AMTTimeout -> timeout * 1000000 <= now w' - now w)
  /\ (is_return o = true ->
      o = Return VNone /\ address self <> None /\ port self <> None).
Proof.
  unfold Client._awaken_amt, bind, datetime_now. intros Hrun.
  apply awaken_loop_facts in Hrun.
  destruct Hrun as (Hnow & Hposts & Hreq & Htimeout & Hret).
  split; [assumption|]. split; [assumption|]. split; [assumption|].
  split; [|assumption].
  intros Ho. specialize (Htimeout Ho). lia.
Qed.

(** When every connect from now on is refused, the loop ends in the
    timeout. *)
Lemma awaken_loop_refused (host : string) (p timeout end_time : Z)
  (f : nat) (w : World) :
  address self = Some host -> port self = Some p ->
  (forall n, (connects w <= n)%nat ->
             connect_result env n = ConnectError (Some ECONNREFUSED)) ->
  end_time - now w <= 500000 * Z.of_nat f ->
  exists w', Client.awaken_loop env (S f) self timeout end_time w
             = Some (Raise AMTTimeout, w')
             /\ end_time <= now w'.
Proof.
  intros Haddr Hport. revert w.
  induction f as [|f IH]; intros w Hrefused Hleft;
    rewrite awaken_loop_round, Haddr, Hport.
  - destruct (Z.ltb_spec (now w) end_time); [lia|]. eauto.
  - destruct (Z.ltb_spec (now w) end_time) as [Hlt|Hge]; [|eauto].
    rewrite (Hrefused (connects w)) by lia. cbn [errno_is].
    rewrite Z.eqb_refl. apply IH.
    + intros n Hn. apply Hrefused.
      cbn [connects after_sleep after_round after_connect emit] in Hn. lia.
    + cbn [now after_sleep after_round after_connect emit]. lia.
Qed.
End Probe.

(** The constructor leaves the attributes of the probe unset, and the
    probe of such a client ends on reading the first of them. *)
Lemma init_sets_no_address (a pw u proto : string) (c : Client) :
  Client.__init__ a pw u proto = Return c ->
  address c = None /\ port c = None.
Proof.
  unfold Client.__init__.
  destruct (getitem AMT_PROTOCOL_PORT_MAP proto); [|discriminate].
  intros [= <-]. split; reflexivity.
Qed.

Lemma awaken_without_address (env : Env) (c : Client) (timeout : Z)
  (w : World) :
  address c = None -> 0 < timeout ->
  Client._awaken_amt env c timeout w
  = Some (Raise (AttributeError "address"),
          emit SocketClosed (emit SocketOpened w)).
Proof.
  intros Haddr Hpos. unfold Client._awaken_amt, bind, datetime_now.
  rewrite awaken_loop_round, Haddr.
  destruct (Z.ltb_spec (now w) (now w + timeout * 1000000)); [reflexivity|lia].
Qed.

(** C2.  The constructor stores [uri], [username] and [password] only:
    on the client it builds, the probe raises [AttributeError] when it
    reads [self.address], before any connect is attempted, whatever
    the network would answer. *)
Theorem awaken_on_constructed_client :
  Client.__init__ "10.0.0.5" "secret" "admin" "http" = Return fresh_client
  /\ forall env : Env,
      exists w',
        Client._awaken_amt env fresh_client 16 world0
        = Some (Raise (AttributeError "address"), w')
        /\ log w' = [SocketOpened; SocketClosed]
        /\ connects_of (log w') = [].
Proof.
  split; [reflexivity|]. intros env.
  rewrite awaken_without_address by (reflexivity || lia).
  eexists. split; [reflexivity|]. split; reflexivity.
Qed.

(** C3, as amended.  On a client that has the address and port
    attributes, when every connect attempt of the probe is refused,
    the probe ends with [AMTTimeout], and at least [timeout] seconds
    have passed on the clock since it began. *)
Theorem awaken_timeout_when_refused (env : Env) (self : Client)
  (host : string) (p timeout : Z) (w : World) :
  address self = Some host ->
  port self = Some p ->
  (forall n, (connects w <= n)%nat ->
             connect_result env n = ConnectError (Some ECONNREFUSED)) ->
  exists w',
    Client._awaken_amt env self timeout w = Some (Raise AMTTimeout, w')
    /\ timeout * 1000000 <= now w' - now w.
Proof.
  intros Haddr Hport Hrefused.
  unfold Client._awaken_amt, bind, datetime_now.
  destruct (awaken_loop_refused env self host p timeout
              (now w + timeout * 1000000) (Z.to_nat (2 * timeout)) w
              Haddr Hport Hrefused) as (w' & Hrun & Hnow); [lia|].
  exists w'. split; [exact Hrun | lia].
Qed.

Lemma awaken_timeout_when_refused_witness :
  exists w',
    Client._awaken_amt env_refused reachable_client 16 world0
    = Some (Raise AMTTimeout, w')
    /\ 16 * 1000000 <= now w' - now world0.
Proof.
  apply (awaken_timeout_when_refused env_refused reachable_client
           "10.0.0.5" 16992 16 world0).
  - reflexivity.
  - reflexivity.
  - intros n _. reflexivity.
Defined.

(** C3 as stated fails: no connect attempt succeeds, yet the probe ends
    with the error of the first attempt, three seconds after it began,
    and not with [AMTTimeout]. *)
Lemma awaken_unreachable_counterexample :
  (forall n, connect_result env_unreachable n <> Connected)
  /\ exists w',
      Client._awaken_amt env_unreachable reachable_client 16 world0
      = Some (Raise (OSError (Some 113)), w')
      /\ now w' - now world0 = 3000000
      /\ connects_of (log w') = [("10.0.0.5", 16992, 16)].
Proof.
  split; [intros n; discriminate|].
  eexists. split; [vm_compute; reflexivity|]. split; reflexivity.
Qed.

(** ** The post helper *)

Lemma sent_app (w w' : World) (l : list Request) :
  requests (log w') = (requests (log w) ++ l)%list ->
  sent w w' = l.
Proof.
  intros H. unfold sent. rewrite H, skipn_app, skipn_all, Nat.sub_diag.
  reflexivity.
Qed.




Section Post.
Context {wsman : Wsman} {xpath : ElementPath}.
Variable env : Env.
Variable self : Client.

(** [post], step by step: the probe, one request, and what is made
    of the answer. *)
Lemma post_run (payload : string) (ns : option string) (w : World) :
  Client.post env self payload ns w =
  match Client._awaken_amt env self 16 w with
  | None => None
  | Some (Raise e, w1) => Some (Raise e, w1)
  | Some (Return _, w1) =>
      let w2 := after_post (soap_request self payload) w1 in
      match http_result env (posts w1) with
      | TransportError => Some (Raise RequestException, w2)
      | Responded resp =>
          Some (post_result ns resp, printed (diagnostics ns resp) w2)
      end
  end.
Proof.
  unfold Client.post. unfold bind at 1.
  destruct (Client._awaken_amt env self 16 w) as [[[v|e] w1]|];
    [|reflexivity|reflexivity].
  unfold bind at 1, requests_post at 1. fold (soap_request self payload).
  destruct (http_result env (posts w1)) as [resp|]; [|reflexivity].
  unfold post_result, diagnostics, printed, bind, lift, print, ret.
  destruct (status_code resp =? 200).
  - destruct ns as [[|c ns]|]; try reflexivity.
    destruct (_return_value (content resp) (String c ns)) as [rv|e];
      [|reflexivity].
    destruct (rv =? 0); [destruct (pp_xml (content resp)); reflexivity|].
    destruct (pp_xml (content resp)); reflexivity.
  - destruct (pp_xml (content resp)); reflexivity.
Qed.

Lemma requests_printed (lines : list PyVal) (w : World) :
  requests (log (printed lines w)) = requests (log w).
Proof.
  revert w. induction lines as [|line lines IH]; intros w; [reflexivity|].
  cbn [printed fold_left]. fold (printed lines (emit (Printed line) w)).
  rewrite IH. cbn [emit log]. rewrite requests_app. cbn.
  now rewrite app_nil_r.
Qed.

(** Every call of [post] comes to an end.  Either the probe raises
    and nothing is sent, or the probe returns and exactly one request
    goes out: the payload with the SOAP content type and the stored
    credentials; the outcome is then the error of the transport or
    what [post_result] makes of the response. *)
Lemma post_spec (payload : string) (ns : option string) (w : World) :
  exists o w',
    Client.post env self payload ns w = Some (o, w')
    /\ ((exists e,
            Client._awaken_amt env self 16 w = Some (Raise e, w')
            /\ o = Raise e
            /\ requests (log w') = requests (log w))
        \/ (exists w1,
               Client._awaken_amt env self 16 w = Some (Return VNone, w1)
               /\ requests (log w')
                  = (requests (log w) ++ [soap_request self payload])%list
               /\ match http_result env (posts w1) with
                  | TransportError => o = Raise RequestException
                  | Responded resp => o = post_result ns resp
                  end)).
Proof.
  rewrite post_run.
  destruct (awaken_amt_total env self 16 w) as [[o1 w1] Hprobe].
  destruct (awaken_amt_facts env self 16 w o1 w1 Hprobe)
    as (_ & _ & Hreq & _ & Hret).
  rewrite Hprobe. destruct o1 as [v|e].
  2:{ exists (Raise e), w1. split; [reflexivity|]. left. eauto. }
  destruct (Hret eq_refl) as ([= ->] & _ & _).
  assert (Hsent : requests (log (after_post (soap_request self payload) w1))
                  = (requests (log w) ++ [soap_request self payload])%list).
  { cbn [log after_post]. now rewrite requests_app, Hreq. }
  cbv zeta.
  destruct (http_result env (posts w1)) as [resp|] eqn:Hhttp.
  - eexists _, _. split; [reflexivity|]. right. exists w1. rewrite Hhttp.
    split; [reflexivity|]. split; [|reflexivity].
    now rewrite requests_printed.
  - eexists _, _. split; [reflexivity|]. right. exists w1. rewrite Hhttp.
    split; [reflexivity|]. split; [exact Hsent|reflexivity].
Qed.
End Post.

(** ** Operations made of two posts *)

Section TwoPosts.
Context {wsman : Wsman} {xpath : ElementPath}.
Variable env : Env.
Variable self : Client.

Lemma set_next_boot_post_twice (dev : string) :
  Client.set_next_boot env self dev
  = post_twice env self (change_boot_order_request (uri self) dev)
      (enable_boot_config_request (uri self)).
Proof. reflexivity. Qed.

Lemma enable_vnc_post_twice (given : option string) :
  Client.enable_vnc env self given
  = post_twice env self
      (enable_remote_kvm (uri self) (Client.rfb_password self given))
      (kvm_redirect (uri self)).
Proof. reflexivity. Qed.

(** Two posts in a row: the requests that go out are a beginning of
    the two requests in their order; the second goes out whenever the
    first call returned, whatever it returned, and the probe before
    the second returns; the value returned in the end is [None]. *)
Lemma post_twice_spec (p1 p2 : string) (w : World) :
  let r1 := soap_request self p1 in
  let r2 := soap_request self p2 in
  exists o w',
    post_twice env self p1 p2 w = Some (o, w')
    /\ (sent w w' = [] \/ sent w w' = [r1] \/ sent w w' = [r1; r2])
    /\ (forall v, o = Return v -> v = VNone /\ sent w w' = [r1; r2])
    /\ (forall w0,
         Client._awaken_amt env self 16 w = Some (Return VNone, w0) ->
         exists rest, sent w w' = r1 :: rest)
    /\ (forall code w1 w2,
         Client.post env self p1 None w = Some (Return code, w1) ->
         Client._awaken_amt env self 16 w1 = Some (Return VNone, w2) ->
         sent w w' = [r1; r2])
    /\ (forall code1 code2 w1 w2,
         Client.post env self p1 None w = Some (Return code1, w1) ->
         Client.post env self p2 None w1 = Some (Return code2, w2) ->
         o = Return VNone /\ w' = w2).
Proof.
  intros r1 r2. unfold post_twice, bind.
  destruct (post_spec env self p1 None w) as (o1 & w1 & Hrun1 & Hcase1).
  rewrite Hrun1. fold r1 in Hcase1.
  destruct o1 as [code1|e1].
  - destruct Hcase1 as [(e & _ & [=] & _)|(wa & Hprobe1 & Hreq1 & _)].
    destruct (post_spec env self p2 None w1) as (o2 & w2 & Hrun2 & Hcase2).
    rewrite Hrun2. fold r2 in Hcase2.
    assert (Hsent2 : forall code w1' w2',
               Some (@Return PyVal code1, w1) = Some (Return code, w1') ->
               Client._awaken_amt env self 16 w1' = Some (Return VNone, w2') ->
               requests (log w2)
               = (requests (log w) ++ [r1; r2])%list).
    { intros code w1' w2' [= _ <-] Hprobe2.
      destruct Hcase2 as [(e & Hfail & _)|(wb & _ & Hreq2 & _)].
      - rewrite Hprobe2 in Hfail. discriminate.
      - rewrite Hreq2, Hreq1, <- app_assoc. reflexivity. }
    destruct o2 as [code2|e2].
    + destruct Hcase2 as [(e & _ & [=] & _)|(wb & Hprobe2 & Hreq2 & _)].
      assert (Hboth : sent w w2 = [r1; r2]).
      { apply sent_app. rewrite Hreq2, Hreq1, <- app_assoc. reflexivity. }
      exists (Return VNone), w2. unfold ret.
      split; [reflexivity|]. split; [auto|].
      split; [intros v [= <-]; auto|].
      split; [intros; rewrite Hboth; eauto|].
      split; [intros; exact Hboth|].
      intros c1 c2 wa' wb' [= _ <-] Hrun2'. rewrite Hrun2 in Hrun2'.
      injection Hrun2' as _ <-. auto.
    + exists (Raise e2), w2. split; [reflexivity|].
      destruct Hcase2 as [(e & _ & _ & Hreq2)|(wb & _ & Hreq2 & _)].
      * assert (Hone : sent w w2 = [r1]).
        { apply sent_app. now rewrite Hreq2, Hreq1. }
        split; [auto|]. split; [discriminate|].
        split; [intros; rewrite Hone; eauto|].
        split.
        -- intros code wa' wb' Hp Hq. apply sent_app.
           exact (Hsent2 code wa' wb' Hp Hq).
        -- intros c1 c2 wa' wb' [= _ <-] Hrun2'. rewrite Hrun2 in Hrun2'.
           discriminate.
      * assert (Hboth : sent w w2 = [r1; r2]).
        { apply sent_app. rewrite Hreq2, Hreq1, <- app_assoc. reflexivity. }
        split; [auto|]. split; [discriminate|].
        split; [intros; rewrite Hboth; eauto|].
        split; [intros; exact Hboth|].
        intros c1 c2 wa' wb' [= _ <-] Hrun2'. rewrite Hrun2 in Hrun2'.
        discriminate.
  - exists (Raise e1), w1. split; [reflexivity|].
    destruct Hcase1 as [(e & Hprobe1 & _ & Hreq1)|(wa & Hprobe1 & Hreq1 & _)].
    + assert (Hnone : sent w w1 = []).
      { apply sent_app. now rewrite app_nil_r. }
      split; [auto|]. split; [discriminate|].
      split; [intros w0 Hp; rewrite Hp in Hprobe1; discriminate|].
      split; discriminate.
    + assert (Hone : sent w w1 = [r1]) by now apply sent_app.
      split; [auto|]. split; [discriminate|].
      split; [intros; rewrite Hone; eauto|].
      split; discriminate.
Qed.
End TwoPosts.

Lemma slice_to_first_chars (n : nat) (s : string) :
  first_chars n (slice_to n s) s.
Proof.
  unfold first_chars, prefix_of. revert s.
  induction n as [|n IH]; intros s.
  - split; [exists s; reflexivity | reflexivity].
  - destruct s as [|c s]; [split; [exists ""; reflexivity | reflexivity]|].
    destruct (IH s) as [[rest Hrest] Hlen]. cbn [slice_to]. split.
    + exists rest. cbn. now rewrite <- Hrest.
    + cbn [String.length]. rewrite Hlen. reflexivity.
Qed.

Lemma slice_to_short (n : nat) (s : string) :
  (String.length s <= n)%nat -> slice_to n s = s.
Proof.
  revert s. induction n as [|n IH]; intros [|c s] Hlen; cbn in *;
    try reflexivity; try lia.
  rewrite IH; [reflexivity | lia].
Qed.

Lemma rfb_password_cases (self : Client) (given : option string) :
  match given with
  | Some p =>
      if Nat.eqb (String.length p) 8
      then Client.rfb_password self given = p
      else Client.rfb_password self given = slice_to 8 (password self)
  | None => Client.rfb_password self given = slice_to 8 (password self)
  end.
Proof.
  destruct given as [p|]; [|reflexivity]. unfold Client.rfb_password.
  destruct (Nat.eqb (String.length p) 8) eqn:Hlen.
  - destruct p; [discriminate Hlen|reflexivity].
  - now rewrite orb_true_r.
Qed.

(** ** The operations *)

(** C1.  A 500 response whose body is an HTML error page: [power_on],
    [power_off] and [power_cycle] print the status line and are then
    left by the [ExpatError] of [pp_xml]; none of them returns the
    failure code 1.  (With a nonzero [ReturnValue] under status 200 the
    call prints the body and returns [None].) *)
Theorem power_change_on_error_page :
  let env := env_answers [error_page 500] in
  (exists w',
      Client.power_on env reachable_client world0 = Some (Raise ExpatError, w')
      /\ In (Printed (VStr "Status: 500")) (log w'))
  /\ (exists w',
      Client.power_off env reachable_client world0
      = Some (Raise ExpatError, w'))
  /\ (exists w',
      Client.power_cycle env reachable_client world0
      = Some (Raise ExpatError, w'))
  /\ (exists w',
      Client.power_on (env_answers [ok_response "2"]) reachable_client world0
      = Some (Return VNone, w')).
Proof.
  cbv zeta. split; [|split; [|split]].
  - eexists. split; [vm_compute; reflexivity|]. cbn. tauto.
  - eexists. vm_compute. reflexivity.
  - eexists. vm_compute. reflexivity.
  - eexists. vm_compute. reflexivity.
Qed.

(** What holds of the three operations: once the probe has returned and
    the endpoint has answered, the outcome is [post_result] of the
    answer, which is the code 0 exactly for status 200 with
    [ReturnValue] 0 and the code 1 for any other status with an XML
    body. *)
Lemma power_change_outcome {wsman : Wsman} {xpath : ElementPath}
  (env : Env) (self : Client)
  (state : string) (w w1 : World) (resp : Response) :
  Client._awaken_amt env self 16 w = Some (Return VNone, w1) ->
  http_result env (posts w1) = Responded resp ->
  exists w',
    Client.post env self (power_state_request (uri self) state)
      (Some CIM_PowerManagementService) w
    = Some (post_result (Some CIM_PowerManagementService) resp, w').
Proof.
  intros Hprobe Hhttp. rewrite post_run, Hprobe. cbv zeta. rewrite Hhttp.
  eexists. reflexivity.
Qed.

(** C6.  [enable_vnc] comes to an end, and the first request it sends,
    if it sends any (it does when the probe returns), is the
    enable-remote-KVM envelope built for a password [pw] that is the
    argument when the argument is a string of exactly 8 characters, and
    the first 8 characters of the stored password in every other
    case. *)
Theorem enable_vnc_password {wsman : Wsman} {xpath : ElementPath}
  (env : Env) (self : Client)
  (given : option string) (w : World) :
  exists pw o w',
    Client.enable_vnc env self given w = Some (o, w')
    /\ (sent w w' = []
        \/ exists rest,
            sent w w'
            = soap_request self (enable_remote_kvm (uri self) pw) :: rest)
    /\ (forall w1,
         Client._awaken_amt env self 16 w = Some (Return VNone, w1) ->
         exists rest,
           sent w w'
           = soap_request self (enable_remote_kvm (uri self) pw) :: rest)
    /\ match given with
       | Some p =>
           if Nat.eqb (String.length p) 8 then pw = p
           else first_chars 8 pw (password self)
       | None => first_chars 8 pw (password self)
       end.
Proof.
  exists (Client.rfb_password self given).
  rewrite enable_vnc_post_twice.
  destruct (post_twice_spec env self
              (enable_remote_kvm (uri self) (Client.rfb_password self given))
              (kvm_redirect (uri self)) w)
    as (o & w' & Hrun & Hsent & _ & Hfirst & _).
  exists o, w'. split; [exact Hrun|]. split.
  - destruct Hsent as [H|[H|H]]; rewrite H; eauto.
  - split; [exact Hfirst|].
    pose proof (rfb_password_cases self given) as Hpw.
    destruct given as [p|].
    + destruct (Nat.eqb (String.length p) 8); [exact Hpw|].
      rewrite Hpw. apply slice_to_first_chars.
    + rewrite Hpw. apply slice_to_first_chars.
Qed.

Lemma enable_vnc_password_witness :
  exists pw o w',
    Client.enable_vnc (env_answers [ok_response "0"; ok_response "0"])
      reachable_client (Some "abcd") world0 = Some (o, w')
    /\ (exists rest,
          sent world0 w'
          = soap_request reachable_client
              (enable_remote_kvm (uri reachable_client) pw) :: rest)
    /\ first_chars 8 pw "abcdefghij".
Proof.
  destruct (enable_vnc_password
              (env_answers [ok_response "0"; ok_response "0"])
              reachable_client (Some "abcd") world0)
    as (pw & o & w' & Hrun & _ & Hfirst & Hpw).
  exists pw, o, w'. split; [exact Hrun|]. split; [|exact Hpw].
  eapply Hfirst. vm_compute. reflexivity.
Defined.

(** The examples of the specification: the stored password
    [abcdefghij] gives the RFB password [abcdefgh], without an argument
    and with the argument [abcd]; an argument of 8 characters is used
    as it is. *)
Example enable_vnc_examples :
  let env := env_answers [ok_response "0"; ok_response "0"] in
  let first_data given :=
    match Client.enable_vnc env reachable_client given world0 with
    | Some (_, w') => option_map data (hd_error (sent world0 w'))
    | None => None
    end in
  first_data None
  = Some (enable_remote_kvm (uri reachable_client) "abcdefgh")
  /\ first_data (Some "abcd")
     = Some (enable_remote_kvm (uri reachable_client) "abcdefgh")
  /\ first_data (Some "12345678")
     = Some (enable_remote_kvm (uri reachable_client) "12345678").
Proof. cbv zeta. repeat split; vm_compute; reflexivity. Qed.

(** C10.  Without an argument of exactly 8 characters and with a stored
    password shorter than 8 characters, [enable_vnc] is the two posts
    with the whole stored password handed to the payload builder:
    nothing is padded, checked or raised on the way, and the first
    request sent, if any (there is one when the probe returns), is the
    envelope built for the stored password. *)
Theorem enable_vnc_short_password {wsman : Wsman} {xpath : ElementPath}
  (env : Env)
  (self : Client) (given : option string) (w : World) :
  (given = None \/ exists p, given = Some p /\ String.length p <> 8%nat) ->
  (String.length (password self) < 8)%nat ->
  Client.rfb_password self given = password self
  /\ Client.enable_vnc env self given w
     = post_twice env self (enable_remote_kvm (uri self) (password self))
         (kvm_redirect (uri self)) w
  /\ exists o w',
      Client.enable_vnc env self given w = Some (o, w')
      /\ (sent w w' = []
          \/ exists rest,
              sent w w'
              = soap_request self
                  (enable_remote_kvm (uri self) (password self)) :: rest)
      /\ (forall w1,
           Client._awaken_amt env self 16 w = Some (Return VNone, w1) ->
           exists rest,
             sent w w'
             = soap_request self
                 (enable_remote_kvm (uri self) (password self)) :: rest).
Proof.
  intros Hgiven Hshort.
  assert (Hpw : Client.rfb_password self given = password self).
  { pose proof (rfb_password_cases self given) as Hcases.
    destruct Hgiven as [->|(p & -> & Hlen)].
    - rewrite Hcases. apply slice_to_short. lia.
    - apply Nat.eqb_neq in Hlen. rewrite Hlen in Hcases.
      rewrite Hcases. apply slice_to_short. lia. }
  split; [exact Hpw|].
  rewrite enable_vnc_post_twice, Hpw. split; [reflexivity|].
  destruct (post_twice_spec env self
              (enable_remote_kvm (uri self) (password self))
              (kvm_redirect (uri self)) w)
    as (o & w' & Hrun & Hsent & _ & Hfirst & _).
  exists o, w'. split; [exact Hrun|]. split; [|exact Hfirst].
  destruct Hsent as [H|[H|H]]; rewrite H; eauto.
Qed.

Lemma enable_vnc_short_password_witness :
  Client.rfb_password short_client (Some "toolongpassword") = "abc"
  /\ exists o w',
      Client.enable_vnc (env_answers [ok_response "0"; ok_response "0"])
        short_client (Some "toolongpassword") world0 = Some (o, w')
      /\ exists rest,
          sent world0 w'
          = soap_request short_client
              (enable_remote_kvm (uri short_client) "abc") :: rest.
Proof.
  destruct (enable_vnc_short_password
              (env_answers [ok_response "0"; ok_response "0"])
              short_client (Some "toolongpassword") world0)
    as (Hpw & _ & o & w' & Hrun & _ & Hfirst).
  - right. eexists. split; [reflexivity|]. cbn. lia.
  - cbn. lia.
  - split; [exact Hpw|]. exists o, w'. split; [exact Hrun|].
    eapply Hfirst. vm_compute. reflexivity.
Defined.

(** [pxe_next_boot] is [set_next_boot] with the device [pxe]. *)
Lemma pxe_next_boot_alias {wsman : Wsman} {xpath : ElementPath}
  (env : Env) (self : Client)
  (w : World) :
  Client.pxe_next_boot env self w = Client.set_next_boot env self "pxe" w.
Proof.
  unfold Client.pxe_next_boot. unfold bind at 1.
  rewrite set_next_boot_post_twice.
  destruct (post_twice_spec env self
              (change_boot_order_request (uri self) "pxe")
              (enable_boot_config_request (uri self)) w)
    as (o & w' & Hrun & _ & Hret & _).
  rewrite Hrun. destruct o as [v|e]; [|reflexivity].
  destruct (Hret v eq_refl) as [-> _]. reflexivity.
Qed.

(** What holds of every call of [set_next_boot]: it comes to an end;
    the requests it sends are a beginning of: the boot-order change for
    the device, then the enabling of the boot-config override; both
    have gone out whenever it returns; and the second goes out whenever
    the first call of [post] returned, with any code, and the probe
    before the second request returns.  [pxe_next_boot] is
    [set_next_boot] with [pxe]. *)
Lemma set_next_boot_two_requests {wsman : Wsman} {xpath : ElementPath}
  (env : Env) (self : Client) (boot_device : string) (w : World) :
  let r1 := soap_request self
              (change_boot_order_request (uri self) boot_device) in
  let r2 := soap_request self (enable_boot_config_request (uri self)) in
  (exists o w',
      Client.set_next_boot env self boot_device w = Some (o, w')
      /\ (sent w w' = [] \/ sent w w' = [r1] \/ sent w w' = [r1; r2])
      /\ (forall v, o = Return v -> sent w w' = [r1; r2])
      /\ (forall code w1 w2,
           Client.post env self (data r1) None w = Some (Return code, w1) ->
           Client._awaken_amt env self 16 w1 = Some (Return VNone, w2) ->
           sent w w' = [r1; r2]))
  /\ Client.pxe_next_boot env self w = Client.set_next_boot env self "pxe" w.
Proof.
  intros r1 r2. split; [|apply pxe_next_boot_alias].
  rewrite set_next_boot_post_twice.
  destruct (post_twice_spec env self
              (change_boot_order_request (uri self) boot_device)
              (enable_boot_config_request (uri self)) w)
    as (o & w' & Hrun & Hsent & Hret & _ & Hsecond & _).
  exists o, w'. split; [exact Hrun|]. split; [exact Hsent|].
  split; [|exact Hsecond].
  intros v Hv. now destruct (Hret v Hv).
Qed.

Lemma set_next_boot_two_requests_witness :
  let env := env_answers [fault_response 500; ok_response "0"] in
  let r1 := soap_request reachable_client
              (change_boot_order_request (uri reachable_client) "pxe") in
  let r2 := soap_request reachable_client
              (enable_boot_config_request (uri reachable_client)) in
  (exists w1,
      Client.post env reachable_client (data r1) None world0
      = Some (Return (VInt 1), w1))
  /\ exists o w',
      Client.set_next_boot env reachable_client "pxe" world0 = Some (o, w')
      /\ sent world0 w' = [r1; r2].
Proof.
  cbv zeta. split; [eexists; vm_compute; reflexivity|].
  destruct (set_next_boot_two_requests
              (env_answers [fault_response 500; ok_response "0"])
              reachable_client "pxe" world0)
    as [(o & w' & Hrun & _ & _ & Hsecond) _].
  exists o, w'. split; [exact Hrun|].
  eapply Hsecond; vm_compute; reflexivity.
Defined.

(** What holds of every call of [set_next_boot], [pxe_next_boot] and
    [enable_vnc]: whenever it returns, it returns [None]; and whatever
    codes the two calls of [post] return, the operation returns [None]
    in the world the second call left: the codes are dropped. *)
Lemma operations_return_none {wsman : Wsman} {xpath : ElementPath}
  (env : Env) (self : Client) (w : World) :
  (forall dev v w',
      Client.set_next_boot env self dev w = Some (Return v, w') -> v = VNone)
  /\ (forall v w',
      Client.pxe_next_boot env self w = Some (Return v, w') -> v = VNone)
  /\ (forall given v w',
      Client.enable_vnc env self given w = Some (Return v, w') -> v = VNone)
  /\ (forall dev code1 code2 w1 w2,
      Client.post env self (change_boot_order_request (uri self) dev) None w
      = Some (Return code1, w1) ->
      Client.post env self (enable_boot_config_request (uri self)) None w1
      = Some (Return code2, w2) ->
      Client.set_next_boot env self dev w = Some (Return VNone, w2)
      /\ (dev = "pxe" ->
          Client.pxe_next_boot env self w = Some (Return VNone, w2)))
  /\ (forall given code1 code2 w1 w2,
      Client.post env self
        (enable_remote_kvm (uri self) (Client.rfb_password self given)) None w
      = Some (Return code1, w1) ->
      Client.post env self (kvm_redirect (uri self)) None w1
      = Some (Return code2, w2) ->
      Client.enable_vnc env self given w = Some (Return VNone, w2)).
Proof.
  assert (Hnone : forall p1 p2 v w',
             post_twice env self p1 p2 w = Some (Return v, w') -> v = VNone).
  { intros p1 p2 v w' Hrun.
    destruct (post_twice_spec env self p1 p2 w)
      as (o & w2 & Hrun' & _ & Hret & _).
    rewrite Hrun in Hrun'. injection Hrun' as <- <-.
    now destruct (Hret v eq_refl). }
  assert (Hboth : forall p1 p2 code1 code2 w1 w2,
             Client.post env self p1 None w = Some (Return code1, w1) ->
             Client.post env self p2 None w1 = Some (Return code2, w2) ->
             post_twice env self p1 p2 w = Some (Return VNone, w2)).
  { intros p1 p2 code1 code2 w1 w2 H1 H2.
    destruct (post_twice_spec env self p1 p2 w)
      as (o & w' & Hrun & _ & _ & _ & _ & Hcodes).
    destruct (Hcodes code1 code2 w1 w2 H1 H2) as [-> ->]. exact Hrun. }
  split; [|split; [|split; [|split]]].
  - intros dev v w'. rewrite set_next_boot_post_twice. apply Hnone.
  - intros v w'. rewrite pxe_next_boot_alias, set_next_boot_post_twice.
    apply Hnone.
  - intros given v w'. rewrite enable_vnc_post_twice. apply Hnone.
  - intros dev code1 code2 w1 w2 H1 H2. split.
    + rewrite set_next_boot_post_twice. exact (Hboth _ _ _ _ _ _ H1 H2).
    + intros ->. rewrite pxe_next_boot_alias, set_next_boot_post_twice.
      exact (Hboth _ _ _ _ _ _ H1 H2).
  - intros given code1 code2 w1 w2 H1 H2.
    rewrite enable_vnc_post_twice. exact (Hboth _ _ _ _ _ _ H1 H2).
Qed.

Lemma operations_return_none_witness :
  let env := env_answers [fault_response 500; ok_response "7"] in
  exists w1 w2,
    Client.post env reachable_client
      (change_boot_order_request (uri reachable_client) "pxe") None world0
    = Some (Return (VInt 1), w1)
    /\ Client.post env reachable_client
         (enable_boot_config_request (uri reachable_client)) None w1
       = Some (Return (VInt 0), w2)
    /\ Client.set_next_boot env reachable_client "pxe" world0
       = Some (Return VNone, w2)
    /\ Client.pxe_next_boot env reachable_client world0
       = Some (Return VNone, w2).
Proof.
  cbv zeta. eexists. eexists.
  split; [vm_compute; reflexivity|].
  split; [vm_compute; reflexivity|].
  destruct (operations_return_none
              (env_answers [fault_response 500; ok_response "7"])
              reachable_client world0) as (_ & _ & _ & Hcodes & _).
  destruct (Hcodes "pxe" (VInt 1) (VInt 0) _ _
              ltac:(vm_compute; reflexivity) ltac:(vm_compute; reflexivity))
    as [Hset Hpxe].
  split; [exact Hset | exact (Hpxe eq_refl)].
Defined.

(** C7.  The first request of [set_next_boot] answered by status 500
    with an HTML error page: the first call of [post] prints the status
    line and is left by the [ExpatError] of [pp_xml] before it can
    return the failure code 1, so the operation ends with one request
    sent, the boot-order change; the enabling of the boot-config
    override is never built or sent.  The same holds of
    [pxe_next_boot].  (With an XML body under the same status the
    first call returns 1 and both requests go out.) *)
Theorem set_next_boot_on_error_page :
  let env := env_answers [error_page 500; ok_response "0"] in
  let r1 := soap_request reachable_client
              (change_boot_order_request (uri reachable_client) "pxe") in
  let r2 := soap_request reachable_client
              (enable_boot_config_request (uri reachable_client)) in
  (exists w',
      Client.set_next_boot env reachable_client "pxe" world0
      = Some (Raise ExpatError, w')
      /\ sent world0 w' = [r1]
      /\ prints (log w') = [VStr "Status: 500"])
  /\ (exists w',
      Client.pxe_next_boot env reachable_client world0
      = Some (Raise ExpatError, w')
      /\ sent world0 w' = [r1])
  /\ (exists w',
      Client.set_next_boot (env_answers [fault_response 500; ok_response "0"])
        reachable_client "pxe" world0
      = Some (Return VNone, w')
      /\ sent world0 w' = [r1; r2]).
Proof.
  cbv zeta. split; [|split].
  - eexists. split; [vm_compute; reflexivity|]. split; reflexivity.
  - eexists. split; [vm_compute; reflexivity|]. reflexivity.
  - eexists. split; [vm_compute; reflexivity|]. reflexivity.
Qed.

(** C9.  A request of [enable_vnc], [set_next_boot] or [pxe_next_boot]
    answered by status 401 with an HTML error page: the operation does
    not return [None], it is left by the [ExpatError] that [pp_xml]
    raises inside [post], after the second request of [enable_vnc] and
    after the first one of the other two.  (With an XML body under the
    same status, [post] returns the code 1, which is dropped, and the
    operation returns [None].) *)
Theorem operations_on_error_page :
  (exists w',
      Client.enable_vnc (env_answers [ok_response "0"; error_page 401])
        reachable_client None world0
      = Some (Raise ExpatError, w')
      /\ List.length (sent world0 w') = 2%nat)
  /\ (exists w',
      Client.set_next_boot (env_answers [error_page 401]) reachable_client
        "pxe" world0
      = Some (Raise ExpatError, w')
      /\ List.length (sent world0 w') = 1%nat)
  /\ (exists w',
      Client.pxe_next_boot (env_answers [error_page 401]) reachable_client
        world0
      = Some (Raise ExpatError, w')
      /\ List.length (sent world0 w') = 1%nat)
  /\ (exists w',
      Client.enable_vnc (env_answers [ok_response "0"; fault_response 401])
        reachable_client None world0
      = Some (Return VNone, w')).
Proof.
  split; [|split; [|split]].
  - eexists. split; [vm_compute; reflexivity|]. reflexivity.
  - eexists. split; [vm_compute; reflexivity|]. reflexivity.
  - eexists. split; [vm_compute; reflexivity|]. reflexivity.
  - eexists. vm_compute. reflexivity.
Qed.

(** C8.  [power_status] and [vnc_status] post without the [headers]
    argument: the one request each of them sends has the Digest
    credentials and the envelope, and no content type.  The request
    [post] sends for the same client has it. *)
Theorem status_requests_lack_content_type :
  let env :=
    env_answers [Responded {| status_code := 200;
                              content := Xml (power_state_doc "2") |}] in
  let soap_type r :=
    has_header "content-type" "application/soap+xml;charset=UTF-8" r in
  (exists w' r,
      Client.power_status env reachable_client world0
      = Some (Return (VStr "2"), w')
      /\ sent world0 w' = [r]
      /\ headers r = []
      /\ soap_type r = false
      /\ auth r = (username reachable_client, password reachable_client)
      /\ data r = get_request (uri reachable_client)
                    CIM_AssociatedPowerManagementService)
  /\ (exists w' r,
      Client.vnc_status env reachable_client world0
      = Some (Return (VPretty (power_state_doc "2")), w')
      /\ sent world0 w' = [r]
      /\ headers r = []
      /\ soap_type r = false)
  /\ (exists w' r,
      Client.power_on env reachable_client world0 = Some (Raise
        (AttributeError "text"), w')
      /\ sent world0 w' = [r]
      /\ soap_type r = true).
Proof.
  cbv zeta. split; [|split].
  - eexists. eexists. split; [vm_compute; reflexivity|].
    split; [vm_compute; reflexivity|]. repeat split.
  - eexists. eexists. split; [vm_compute; reflexivity|].
    split; [vm_compute; reflexivity|]. repeat split.
  - eexists. eexists. split; [vm_compute; reflexivity|].
    split; [vm_compute; reflexivity|]. reflexivity.
Qed.


(** Every request that [post] sends carries the SOAP content type, the
    stored credentials and the payload. *)
Lemma soap_request_shape (self : Client) (payload : string) :
  has_header "content-type" "application/soap+xml;charset=UTF-8"
    (soap_request self payload) = true
  /\ auth (soap_request self payload) = (username self, password self)
  /\ data (soap_request self payload) = payload
  /\ url (soap_request self payload) = uri self.
Proof. repeat split. Qed.

(** * Further properties *)

(** ** The probe, round by round *)


Lemma log_after_round (env : Env) (h : string) (p timeout : Z) (w : World) :
  log (after_round env h p timeout w)
  = (log w ++ last_round h p timeout)%list.
Proof.
  unfold after_round, after_connect, emit, last_round. cbn [log].
  now rewrite <- !app_assoc.
Qed.

Lemma log_after_refused_round (env : Env) (h : string) (p timeout : Z)
  (w : World) :
  log (after_sleep env 500000 (after_round env h p timeout w))
  = (log w ++ refused_round h p timeout)%list.
Proof.
  unfold after_sleep. cbn [log]. rewrite log_after_round.
  unfold last_round, refused_round. now rewrite <- app_assoc.
Qed.

Section ProbeRounds.
Variable env : Env.
Variable self : Client.
Variable host : string.
Variable p : Z.
Hypothesis Haddr : address self = Some host.
Hypothesis Hport : port self = Some p.


(** With [k] refusals that leave time before the deadline and an
    accepting endpoint after them, the loop returns in round [k + 1]. *)
Lemma awaken_loop_returns (timeout end_time d : Z) (k : nat) :
  forall (f : nat) (w : World),
    (k < f)%nat ->
    (forall i, (i < k)%nat ->
       connect_result env (connects w + i) = ConnectError (Some ECONNREFUSED)
       /\ Z.of_N (connect_micros env (connects w + i))
          + Z.of_N (oversleep env (sleeps w + i)) <= d) ->
    connect_result env (connects w + k) = Connected ->
    now w + Z.of_nat k * (500000 + d) < end_time ->
    exists w',
      Client.awaken_loop env f self timeout end_time w
      = Some (Return VNone, w')
      /\ connects w' = (connects w + k + 1)%nat
      /\ sleeps w' = (sleeps w + k)%nat
      /\ log w' = (log w ++ refused_rounds k host p timeout
                     ++ last_round host p timeout)%list.
Proof.
  induction k as [|k IH]; intros f w Hfuel Hrefused Haccept Htime;
    (destruct f as [|f]; [lia|]); rewrite awaken_loop_round, Haddr, Hport.
  - rewrite Nat.add_0_r in Haccept.
    destruct (Z.ltb_spec (now w) end_time); [|lia].
    rewrite Haccept. eexists. split; [reflexivity|].
    split; [cbn; lia|]. split; [cbn; lia|]. apply log_after_round.
  - destruct (Hrefused O ltac:(lia)) as [Hfirst Hdur].
    rewrite Nat.add_0_r in Hfirst. rewrite !Nat.add_0_r in Hdur.
    assert (Hd : 0 <= d) by lia.
    rewrite Nat2Z.inj_succ, Z.mul_succ_l in Htime.
    assert (Hrest : 0 <= Z.of_nat k * (500000 + d))
      by (apply Z.mul_nonneg_nonneg; lia).
    destruct (Z.ltb_spec (now w) end_time); [|lia].
    rewrite Hfirst. cbn [errno_is]. rewrite Z.eqb_refl.
    destruct (IH f (after_sleep env 500000 (after_round env host p timeout w)))
      as (w' & Hrun & Hc & Hs & Hlog).
    + lia.
    + intros i Hi.
      cbn [connects sleeps after_sleep after_round after_connect emit].
      replace (S (connects w) + i)%nat with (connects w + S i)%nat by lia.
      replace (S (sleeps w) + i)%nat with (sleeps w + S i)%nat by lia.
      apply Hrefused. lia.
    + cbn [connects after_sleep after_round after_connect emit].
      replace (S (connects w) + k)%nat with (connects w + S k)%nat by lia.
      exact Haccept.
    + cbn [now sleeps connects after_sleep after_round after_connect emit].
      lia.
    + exists w'. split; [exact Hrun|].
      cbn [connects sleeps after_sleep after_round after_connect emit]
        in Hc, Hs.
      rewrite log_after_refused_round in Hlog.
      split; [lia|]. split; [lia|].
      cbn [refused_rounds]. rewrite <- !app_assoc in Hlog.
      rewrite <- !app_assoc. exact Hlog.
Qed.
End ProbeRounds.

Section ProbeBounds.
Variable env : Env.
Variable self : Client.



(** When no connect takes longer than [d] and no sleep oversleeps by
    more than [s], the loop ends where it began or before the deadline
    plus one connect and one sleep. *)
Lemma awaken_loop_elapsed (timeout end_time d s : Z) (f : nat) :
  (forall n, Z.of_N (connect_micros env n) <= d) ->
  (forall n, Z.of_N (oversleep env n) <= s) ->
  forall (w : World) (o : Outcome PyVal) (w' : World),
    Client.awaken_loop env f self timeout end_time w = Some (o, w') ->
    now w' = now w \/ now w' < end_time + d + 500000 + s.
Proof.
  intros Hd Hs. induction f as [|f IH]; intros w o w'; [discriminate|].
  rewrite awaken_loop_round.
  destruct (Z.ltb_spec (now w) end_time) as [Hlt|Hge];
    [|intros [= <- <-]; auto].
  destruct (address self) as [h|]; [|intros [= <- <-]; auto].
  destruct (port self) as [q|]; [|intros [= <- <-]; auto].
  pose proof (Hd (connects w)) as Hd1. pose proof (Hs (sleeps w)) as Hs1.
  assert (0 <= s) by lia.
  destruct (connect_result env (connects w)) as [|errno].
  { intros [= <- <-]. right. cbn. lia. }
  destruct (errno_is errno ECONNREFUSED).
  2:{ intros [= <- <-]. right. cbn. lia. }
  intros Hrun. apply IH in Hrun. right.
  cbn [now sleeps connects after_sleep after_round after_connect emit]
    in Hrun.
  lia.
Qed.
End ProbeBounds.



(** X2.  When the first [k] connect attempts are refused, each taking
    with its sleep's overshoot at most [d] microseconds, the next one is
    accepted, and [k * (0.5 s + d)] is less than the timeout, the probe
    returns after [k + 1] connects and [k] sleeps. *)
Theorem awaken_returns_after_refusals (env : Env) (self : Client)
  (host : string) (p timeout d : Z) (k : nat) (w : World) :
  address self = Some host ->
  port self = Some p ->
  (forall i, (i < k)%nat ->
     connect_result env (connects w + i) = ConnectError (Some ECONNREFUSED)
     /\ Z.of_N (connect_micros env (connects w + i))
        + Z.of_N (oversleep env (sleeps w + i)) <= d) ->
  connect_result env (connects w + k) = Connected ->
  Z.of_nat k * (500000 + d) < timeout * 1000000 ->
  exists w',
    Client._awaken_amt env self timeout w = Some (Return VNone, w')
    /\ connects w' = (connects w + k + 1)%nat
    /\ sleeps w' = (sleeps w + k)%nat
    /\ requests (log w') = requests (log w).
Proof.
  intros Haddr Hport Hrefused Haccept Htime.
  unfold Client._awaken_amt, bind, datetime_now.
  assert (Hfuel : (k < S (Z.to_nat (2 * timeout)))%nat).
  { destruct k as [|k]; [lia|].
    destruct (Hrefused O ltac:(lia)) as [_ Hdur].
    assert (0 <= d) by lia.
    assert (Z.of_nat (S k) * 500000 <= Z.of_nat (S k) * (500000 + d))
      by (apply Z.mul_le_mono_nonneg_l; lia).
    lia. }
  destruct (awaken_loop_returns env self host p Haddr Hport timeout
              (now w + timeout * 1000000) d k _ w Hfuel Hrefused Haccept)
    as (w' & Hrun & Hc & Hs & Hlog); [lia|].
  exists w'. split; [exact Hrun|]. split; [exact Hc|]. split; [exact Hs|].
  now apply awaken_loop_facts in Hrun.
Qed.

Lemma awaken_returns_after_refusals_witness :
  exists w',
    Client._awaken_amt (env_wakes []) reachable_client 16 world0
    = Some (Return VNone, w')
    /\ connects w' = 3%nat /\ sleeps w' = 2%nat
    /\ requests (log w') = [].
Proof.
  apply (awaken_returns_after_refusals (env_wakes []) reachable_client
           "10.0.0.5" 16992 16 1300 2 world0).
  - reflexivity.
  - reflexivity.
  - intros [|[|i]] Hi; [split; [reflexivity | cbn; lia] ..|lia].
  - reflexivity.
  - lia.
Defined.



(** X5.  With a timeout that is not positive the probe raises
    [AMTTimeout] at once: nothing is opened, connected or read from the
    client, and the world is as before. *)
Theorem awaken_nonpositive_timeout (env : Env) (self : Client)
  (timeout : Z) (w : World) :
  timeout <= 0 ->
  Client._awaken_amt env self timeout w = Some (Raise AMTTimeout, w).
Proof.
  intros Hle. unfold Client._awaken_amt, bind, datetime_now.
  rewrite awaken_loop_round.
  destruct (Z.ltb_spec (now w) (now w + timeout * 1000000)); [lia|].
  reflexivity.
Qed.

Lemma awaken_nonpositive_timeout_witness :
  Client._awaken_amt env_refused fresh_client 0 world0
  = Some (Raise AMTTimeout, world0).
Proof.
  apply awaken_nonpositive_timeout. lia.
Defined.

(** X6.  When no connect attempt takes longer than [d] microseconds and
    no sleep overshoots by more than [s], the probe with a timeout that
    is not negative ends less than [timeout] seconds plus one connect
    and one sleep after it began, however it ends. *)
Theorem awaken_elapsed_bounded (env : Env) (self : Client)
  (timeout d s : Z) (w : World) :
  (forall n, Z.of_N (connect_micros env n) <= d) ->
  (forall n, Z.of_N (oversleep env n) <= s) ->
  0 <= timeout ->
  exists o w',
    Client._awaken_amt env self timeout w = Some (o, w')
    /\ now w <= now w'
    /\ now w' - now w < timeout * 1000000 + d + 500000 + s.
Proof.
  intros Hd Hs Htimeout.
  destruct (awaken_amt_total env self timeout w) as [[o w'] Hrun].
  exists o, w'. split; [exact Hrun|].
  destruct (awaken_amt_facts env self timeout w o w' Hrun) as (Hnow & _).
  split; [exact Hnow|].
  unfold Client._awaken_amt, bind, datetime_now in Hrun.
  pose proof (Hd O) as Hd0. pose proof (Hs O) as Hs0.
  destruct (awaken_loop_elapsed env self timeout _ d s _ Hd Hs _ _ _ Hrun);
    lia.
Qed.

Lemma awaken_elapsed_bounded_witness :
  exists o w',
    Client._awaken_amt env_refused reachable_client 16 world0 = Some (o, w')
    /\ now world0 <= now w'
    /\ now w' - now world0 < 16 * 1000000 + 1000 + 500000 + 300.
Proof.
  apply (awaken_elapsed_bounded env_refused reachable_client 16 1000 300
           world0).
  - intros n. cbn. lia.
  - intros n. cbn. lia.
  - lia.
Defined.

(** ** What [post] prints and returns *)

Lemma prints_app (l1 l2 : list Event) :
  prints (l1 ++ l2) = (prints l1 ++ prints l2)%list.
Proof.
  induction l1 as [|e l1 IH]; [reflexivity|].
  destruct e; simpl; now rewrite IH.
Qed.

Lemma prints_printed (lines : list PyVal) (w : World) :
  prints (log (printed lines w)) = (prints (log w) ++ lines)%list.
Proof.
  revert w. induction lines as [|line lines IH]; intros w.
  - cbn. now rewrite app_nil_r.
  - cbn [printed fold_left]. fold (printed lines (emit (Printed line) w)).
    rewrite IH. cbn [emit log]. rewrite prints_app. cbn.
    now rewrite <- app_assoc.
Qed.

(** The probe prints nothing. *)
Lemma awaken_loop_prints (env : Env) (self : Client) (timeout end_time : Z)
  (f : nat) :
  forall (w : World) (o : Outcome PyVal) (w' : World),
    Client.awaken_loop env f self timeout end_time w = Some (o, w') ->
    prints (log w') = prints (log w).
Proof.
  induction f as [|f IH]; intros w o w'; [discriminate|].
  rewrite awaken_loop_round.
  destruct (now w <? end_time); [|now intros [= <- <-]].
  assert (Hround : forall h q,
             prints (log (after_round env h q timeout w)) = prints (log w)).
  { intros h q. rewrite log_after_round, prints_app. cbn.
    now rewrite app_nil_r. }
  destruct (address self) as [h|].
  2:{ intros [= <- <-]. cbn. rewrite !prints_app. cbn.
      now rewrite !app_nil_r. }
  destruct (port self) as [q|].
  2:{ intros [= <- <-]. cbn. rewrite !prints_app. cbn.
      now rewrite !app_nil_r. }
  destruct (connect_result env (connects w)) as [|errno];
    [intros [= <- <-]; apply Hround|].
  destruct (errno_is errno ECONNREFUSED); [|intros [= <- <-]; apply Hround].
  intros Hrun. apply IH in Hrun. rewrite Hrun, log_after_refused_round.
  rewrite prints_app. cbn. now rewrite app_nil_r.
Qed.

Lemma awaken_amt_prints (env : Env) (self : Client) (timeout : Z)
  (w : World) (o : Outcome PyVal) (w' : World) :
  Client._awaken_amt env self timeout w = Some (o, w') ->
  prints (log w') = prints (log w).
Proof.
  unfold Client._awaken_amt, bind, datetime_now. apply awaken_loop_prints.
Qed.



(** ** The operations, one exchange at a time *)


Lemma call_twice {wsman : Wsman} {xpath : ElementPath}
  (env : Env) (self : Client)
  (op : Operation) (p2 : string) (w : World) :
  second_payload self op = Some p2 ->
  call env self op w = post_twice env self (first_payload self op) p2 w.
Proof.
  destruct op; try discriminate; intros [= <-]; cbn [call first_payload].
  - now rewrite pxe_next_boot_alias, set_next_boot_post_twice.
  - now rewrite set_next_boot_post_twice.
  - now rewrite enable_vnc_post_twice.
Qed.

(** After a probe that returned, [post] sends its request and makes of
    the answer what [post_result] and [diagnostics] say. *)
Lemma post_answered {wsman : Wsman} {xpath : ElementPath}
  (env : Env) (self : Client)
  (payload : string) (ns : option string) (w w1 : World) (resp : Response) :
  Client._awaken_amt env self 16 w = Some (Return VNone, w1) ->
  http_result env (posts w1) = Responded resp ->
  exists w',
    Client.post env self payload ns w = Some (post_result ns resp, w')
    /\ sent w w' = [soap_request self payload]
    /\ prints (log w') = (prints (log w) ++ diagnostics ns resp)%list
    /\ posts w' = S (posts w)
    /\ connects w' = connects w1.
Proof.
  intros Hprobe Hhttp. rewrite post_run, Hprobe. cbv zeta. rewrite Hhttp.
  destruct (awaken_amt_facts env self 16 w _ w1 Hprobe)
    as (_ & Hposts & Hreq & _ & _).
  eexists. split; [reflexivity|]. split; [|split; [|split]].
  - apply sent_app. rewrite requests_printed. cbn [log after_post].
    now rewrite requests_app, Hreq.
  - rewrite prints_printed. cbn [log after_post]. rewrite prints_app. cbn.
    rewrite app_nil_r. now rewrite (awaken_amt_prints _ _ _ _ _ _ Hprobe).
  - clear Hhttp. induction (diagnostics ns resp) as [|l ls IH] using rev_ind.
    + cbn. now rewrite Hposts.
    + unfold printed in *. rewrite fold_left_app. cbn. exact IH.
  - induction (diagnostics ns resp) as [|l ls IH] using rev_ind.
    + reflexivity.
    + unfold printed in *. rewrite fold_left_app. cbn. exact IH.
Qed.











Lemma post_result_no_namespace {xpath : ElementPath}
  (ns : option string) (resp : Response) :
  ns = None \/ ns = Some "" ->
  status_code resp = 200 ->
  post_result ns resp = Return (VInt 0) /\ diagnostics ns resp = [].
Proof.
  intros Hns H200. unfold post_result, diagnostics. rewrite H200.
  destruct Hns as [-> | ->]; split; reflexivity.
Qed.

(** X10.  Without a namespace ([None] or the empty string) [post] does
    not read the body: after a probe that returned, any response of
    status 200 makes it return 0 and print nothing, whatever the body
    holds, a nonzero [ReturnValue] or no XML at all. *)
Theorem post_without_namespace {wsman : Wsman} {xpath : ElementPath}
  (env : Env) (self : Client)
  (payload : string) (ns : option string) (w w1 : World) (resp : Response) :
  ns = None \/ ns = Some "" ->
  Client._awaken_amt env self 16 w = Some (Return VNone, w1) ->
  http_result env (posts w1) = Responded resp ->
  status_code resp = 200 ->
  exists w',
    Client.post env self payload ns w = Some (Return (VInt 0), w')
    /\ sent w w' = [soap_request self payload]
    /\ prints (log w') = prints (log w).
Proof.
  intros Hns Hprobe Hhttp H200.
  destruct (post_answered env self payload ns w w1 resp Hprobe Hhttp)
    as (w' & Hrun & Hsent & Hprints & _).
  destruct (post_result_no_namespace ns resp Hns H200) as [Hres Hdiag].
  rewrite Hres in Hrun. rewrite Hdiag, app_nil_r in Hprints.
  exists w'. auto.
Qed.

Lemma post_without_namespace_witness :
  exists w',
    Client.post (env_answers [ok_response "5"]) reachable_client "payload"
      None world0
    = Some (Return (VInt 0), w')
    /\ prints (log w') = [].
Proof.
  edestruct (post_without_namespace (env_answers [ok_response "5"])
               reachable_client "payload" None world0)
    as (w' & Hrun & _ & Hprints).
  - now left.
  - vm_compute. reflexivity.
  - reflexivity.
  - reflexivity.
  - exists w'. split; [exact Hrun | exact Hprints].
Defined.

(** On a client that has both attributes, an accepted connect makes the
    probe return after one round. *)
Lemma awaken_accepted (env : Env) (self : Client) (host : string) (p : Z)
  (w : World) :
  address self = Some host -> port self = Some p ->
  connect_result env (connects w) = Connected ->
  Client._awaken_amt env self 16 w
  = Some (Return VNone, after_round env host p 16 w).
Proof.
  intros Haddr Hport Hconn. unfold Client._awaken_amt, bind, datetime_now.
  rewrite awaken_loop_round, Haddr, Hport, Hconn.
  destruct (Z.ltb_spec (now w) (now w + 16 * 1000000)); [reflexivity|lia].
Qed.

(** X11.  [set_next_boot], [pxe_next_boot] and [enable_vnc] take status
    200 for success and look no further: on a client that has both
    attributes, when the endpoint accepts the two connects and answers
    both requests with status 200, the operation sends its two requests
    in order, prints nothing and returns [None], whatever the two
    bodies hold. *)
Theorem twice_accepted_is_silent {wsman : Wsman} {xpath : ElementPath}
  (env : Env) (self : Client)
  (host : string) (p : Z) (op : Operation) (p2 : string) (w : World)
  (resp1 resp2 : Response) :
  second_payload self op = Some p2 ->
  address self = Some host ->
  port self = Some p ->
  connect_result env (connects w) = Connected ->
  connect_result env (S (connects w)) = Connected ->
  http_result env (posts w) = Responded resp1 ->
  http_result env (S (posts w)) = Responded resp2 ->
  status_code resp1 = 200 ->
  status_code resp2 = 200 ->
  exists w',
    call env self op w = Some (Return VNone, w')
    /\ sent w w' = [soap_request self (first_payload self op);
                    soap_request self p2]
    /\ prints (log w') = prints (log w).
Proof.
  intros Hop Haddr Hport Hc1 Hc2 Hh1 Hh2 H1 H2.
  rewrite (call_twice env self op p2 w Hop).
  pose proof (awaken_accepted env self host p w Haddr Hport Hc1) as Hprobe1.
  destruct (post_result_no_namespace None resp1 (or_introl eq_refl) H1)
    as [Hres1 Hdiag1].
  destruct (post_result_no_namespace None resp2 (or_introl eq_refl) H2)
    as [Hres2 Hdiag2].
  destruct (post_answered env self (first_payload self op) None w _ resp1
              Hprobe1 Hh1)
    as (w1 & Hrun1 & _ & Hprints1 & Hposts1 & Hconn1).
  rewrite Hres1 in Hrun1. rewrite Hdiag1, app_nil_r in Hprints1.
  cbn [connects after_round after_connect emit] in Hconn1.
  assert (Hc2' : connect_result env (connects w1) = Connected)
    by now rewrite Hconn1.
  pose proof (awaken_accepted env self host p w1 Haddr Hport Hc2') as Hprobe2.
  assert (Hh2' : http_result env
                   (posts (after_round env host p 16 w1)) = Responded resp2).
  { cbn [posts after_round after_connect emit]. now rewrite Hposts1. }
  destruct (post_answered env self p2 None w1 _ resp2 Hprobe2 Hh2')
    as (w2 & Hrun2 & _ & Hprints2 & _).
  rewrite Hres2 in Hrun2. rewrite Hdiag2, app_nil_r in Hprints2.
  destruct (post_twice_spec env self (first_payload self op) p2 w)
    as (o & w' & Hrun & _ & Hret & _ & _ & Hcodes).
  destruct (Hcodes _ _ _ _ Hrun1 Hrun2) as [-> ->].
  exists w2. split; [exact Hrun|].
  split; [now destruct (Hret VNone eq_refl) | congruence].
Qed.

Lemma twice_accepted_is_silent_witness :
  let env := env_answers [ok_response "1"; error_page 200] in
  exists w',
    Client.set_next_boot env reachable_client "hd" world0
    = Some (Return VNone, w')
    /\ List.length (sent world0 w') = 2%nat
    /\ prints (log w') = [].
Proof.
  cbv zeta.
  edestruct (twice_accepted_is_silent
               (env_answers [ok_response "1"; error_page 200])
               reachable_client "10.0.0.5" 16992 (SetNextBoot "hd")
               (enable_boot_config_request (uri reachable_client)) world0)
    as (w' & Hrun & Hsent & Hprints);
    try reflexivity.
  exists w'. split; [exact Hrun|]. split; [now rewrite Hsent | exact Hprints].
Defined.










(** X15.  Every operation begins with the probe: when the probe raises
    (the timeout, the error of a connect, a missing attribute), the
    operation raises the same exception in the world the probe left,
    with no request sent. *)
Theorem probe_failure_ends_operation {wsman : Wsman} {xpath : ElementPath}
  (env : Env)
  (self : Client) (op : Operation) (w w1 : World) (e : Exn) :
  Client._awaken_amt env self 16 w = Some (Raise e, w1) ->
  call env self op w = Some (Raise e, w1)
  /\ sent w w1 = []
  /\ prints (log w1) = prints (log w).
Proof.
  intros Hprobe.
  destruct (awaken_amt_facts env self 16 w _ w1 Hprobe)
    as (_ & _ & Hreq & _ & _).
  split; [|split].
  - assert (Hpost : forall payload ns,
               Client.post env self payload ns w = Some (Raise e, w1))
      by (intros payload ns; now rewrite post_run, Hprobe).
    assert (Htwice : forall p1 p2,
               post_twice env self p1 p2 w = Some (Raise e, w1))
      by (intros p1 p2; unfold post_twice, bind; now rewrite Hpost).
    destruct op; cbn [call];
      try apply Hpost;
      try (rewrite ?pxe_next_boot_alias, ?set_next_boot_post_twice,
             ?enable_vnc_post_twice; apply Htwice).
    + unfold Client.power_status. unfold bind at 1. now rewrite Hprobe.
    + unfold Client.vnc_status. unfold bind at 1. now rewrite Hprobe.
  - apply sent_app. now rewrite app_nil_r.
  - exact (awaken_amt_prints _ _ _ _ _ _ Hprobe).
Qed.

Lemma probe_failure_ends_operation_witness :
  exists w1,
    call env_refused reachable_client PowerStatus world0
    = Some (Raise AMTTimeout, w1)
    /\ sent world0 w1 = []
    /\ call env_unreachable reachable_client (EnableVnc None) world0
       = Some (Raise (OSError (Some 113)),
               after_round env_unreachable "10.0.0.5" 16992 16 world0).
Proof.
  edestruct (probe_failure_ends_operation env_refused reachable_client
               PowerStatus world0) as (Hrun & Hsent & _).
  - vm_compute. reflexivity.
  - eexists. split; [exact Hrun|]. split; [exact Hsent|].
    apply (probe_failure_ends_operation env_unreachable reachable_client
             (EnableVnc None) world0).
    vm_compute. reflexivity.
Defined.



(** ** The extractors *)

Lemma filter_none_named (ns k : string) (l : list Element) :
  ~ In (qname ns k) (map tag l) -> filter (named ns k) l = [].
Proof.
  induction l as [|e l IH]; intros Hno; [reflexivity|].
  cbn [filter]. unfold named at 1.
  destruct (String.eqb_spec (tag e) (qname ns k)) as [Heq|_].
  - exfalso. apply Hno. left. exact Heq.
  - apply IH. intros Hin. apply Hno. now right.
Qed.

Lemma filter_some_named (ns k : string) (l : list Element) :
  In (qname ns k) (map tag l) ->
  exists e rest, filter (named ns k) l = e :: rest.
Proof.
  induction l as [|e l IH]; intros Hin; [destruct Hin|].
  cbn [filter]. unfold named at 1.
  destruct (String.eqb_spec (tag e) (qname ns k)) as [Heq|Hne].
  - eauto.
  - destruct Hin as [Heq|Hin]; [contradiction|]. now apply IH.
Qed.

(** The first match below a root with the children
    [before ++ c :: after], when nothing in [before] has the name and
    something in [c] has it, is the first match in [c]. *)
Lemma first_named_in_child (ns k t : string) (x : option string)
  (before after : list Element) (c : Element) :
  ~ In (qname ns k) (map tag (flat_map preorder before)) ->
  In (qname ns k) (map tag (preorder c)) ->
  first_named ns k (Elem t x (before ++ c :: after))
  = hd_error (filter (named ns k) (preorder c)).
Proof.
  intros Hbefore Hc. unfold first_named, descendants. cbn [children].
  rewrite flat_map_app. cbn [flat_map]. rewrite !filter_app.
  rewrite (filter_none_named ns k _ Hbefore).
  destruct (filter_some_named ns k _ Hc) as (e & rest & ->). reflexivity.
Qed.

(** X17.  For a qualified name [{ns}k] that ElementPath compares
    literally, the two extractors search the children of the root from
    left to right and each child's subtree before the next child: when
    no element in the children [before] has the name and some element
    in the child [c] (or [c] itself) has it, the result is the one for
    a document whose root has [c] as its only child, whatever the tag
    and text of the root are and whatever follows [c]. *)
Theorem extraction_first_match {xpath : ElementPath} (ns k t t' : string)
  (x x' : option string) (before after : list Element) (c : Element) :
  literal_tag (qname ns k) = true ->
  ~ In (qname ns k) (map tag (flat_map preorder before)) ->
  In (qname ns k) (map tag (preorder c)) ->
  _find_value (Xml (Elem t x (before ++ c :: after))) ns k
  = _find_value (Xml (Elem t' x' [c])) ns k
  /\ (k = "ReturnValue" ->
      _return_value (Xml (Elem t x (before ++ c :: after))) ns
      = _return_value (Xml (Elem t' x' [c])) ns).
Proof.
  intros Hlit Hbefore Hc.
  assert (Hfind : find (Elem t x (before ++ c :: after)) (query ns k)
                  = find (Elem t' x' [c]) (query ns k)).
  { rewrite !(find_first_named _ _ _ Hlit).
    rewrite (first_named_in_child ns k t x before after c Hbefore Hc).
    pose proof (first_named_in_child ns k t' x' [] [] c) as Hone.
    cbn [app] in Hone. rewrite Hone; auto. }
  split.
  - unfold _find_value. cbn [fromstring]. now rewrite Hfind.
  - intros ->. unfold _return_value. cbn [fromstring]. now rewrite Hfind.
Qed.

Lemma extraction_first_match_witness :
  _find_value
    (Xml (Elem "{urn:apm}PowerState" (Some "root") (
            [Elem "{urn:soap}Header" None []]
            ++ Elem "{urn:soap}Body" None
                 [Elem "{urn:apm}PowerState" (Some "2") []]
            :: [Elem "{urn:apm}PowerState" (Some "9") []])))
    "urn:apm" "PowerState"
  = Return (VStr "2").
Proof.
  refine (eq_trans
            (proj1 (extraction_first_match "urn:apm" "PowerState"
                      _ "t" _ None _ _ _ _ _ _)) _).
  - reflexivity.
  - cbn. intros [H|[]]. discriminate H.
  - cbn. right. left. reflexivity.
  - reflexivity.
Defined.

(** X18.  [_return_value] picks the element that [_find_value] picks
    for the name [ReturnValue], and differs only in the conversion: it
    raises what [_find_value] raises, raises [TypeError] where
    [_find_value] returns [None], and where [_find_value] returns a
    string it returns its integer value or raises [ValueError]. *)
Theorem return_value_of_find_value {xpath : ElementPath} (body : Content)
  (ns : string) :
  match _find_value body ns "ReturnValue" with
  | Raise e => _return_value body ns = Raise e
  | Return VNone => _return_value body ns = Raise TypeError
  | Return (VStr s) =>
      match py_int s with
      | Some n => _return_value body ns = Return n
      | None => _return_value body ns = Raise ValueError
      end
  | Return _ => False
  end.
Proof.
  unfold _find_value, _return_value.
  destruct (fromstring body) as [doc|e]; [|reflexivity].
  destruct (find doc (query ns "ReturnValue")) as [[rv|]|e];
    [|reflexivity|reflexivity].
  destruct (text rv) as [s|]; [|reflexivity].
  destruct (py_int s); reflexivity.
Qed.

(** X19.  The password that [enable_vnc] hands to the payload builder
    is never longer than 8 characters; it has exactly 8 when the stored
    password has at least 8, and when it has fewer than 8 it is the
    stored password.  The first request sent, if any, is the envelope
    built for it. *)
Theorem rfb_password_at_most_eight {wsman : Wsman} {xpath : ElementPath}
  (env : Env)
  (self : Client) (given : option string) (w : World) :
  exists pw o w',
    Client.enable_vnc env self given w = Some (o, w')
    /\ (sent w w' = []
        \/ exists rest,
            sent w w'
            = soap_request self (enable_remote_kvm (uri self) pw) :: rest)
    /\ (String.length pw <= 8)%nat
    /\ ((8 <= String.length (password self))%nat -> String.length pw = 8%nat)
    /\ ((String.length pw < 8)%nat -> pw = password self).
Proof.
  exists (Client.rfb_password self given).
  rewrite enable_vnc_post_twice.
  destruct (post_twice_spec env self
              (enable_remote_kvm (uri self) (Client.rfb_password self given))
              (kvm_redirect (uri self)) w)
    as (o & w' & Hrun & Hsent & _).
  exists o, w'. split; [exact Hrun|]. split.
  { destruct Hsent as [H|[H|H]]; rewrite H; eauto. }
  pose proof (rfb_password_cases self given) as Hpw.
  destruct (slice_to_first_chars 8 (password self)) as [_ Hlen].
  assert (Hslice : (String.length (slice_to 8 (password self)) < 8)%nat ->
                   slice_to 8 (password self) = password self)
    by (intros Hlt; apply slice_to_short; lia).
  destruct given as [g|].
  - destruct (Nat.eqb_spec (String.length g) 8) as [Hg|Hg].
    + rewrite Hpw. repeat split; lia.
    + rewrite Hpw. repeat split; try lia. exact Hslice.
  - rewrite Hpw. repeat split; try lia. exact Hslice.
Qed.

(** X20.  The constructor knows two protocols: for [http] and [https]
    it stores the user name and the password as given and the URI
    [<protocol>://<address>:<port>/wsman] with the port 16992 or 16993;
    for any other protocol it raises [KeyError] with the protocol as
    key.  In no case does it store an [address] or [port] attribute. *)
Theorem init_result (address password username protocol : string) :
  (protocol = "http" ->
   Client.__init__ address password username protocol
   = Return (Build_Client ("http://" ++ address ++ ":16992/wsman")
               username password None None))
  /\ (protocol = "https" ->
      Client.__init__ address password username protocol
      = Return (Build_Client ("https://" ++ address ++ ":16993/wsman")
                  username password None None))
  /\ (protocol <> "http" -> protocol <> "https" ->
      Client.__init__ address password username protocol
      = Raise (KeyError protocol)).
Proof.
  split; [|split].
  - intros ->. reflexivity.
  - intros ->. reflexivity.
  - intros Hhttp Hhttps. unfold Client.__init__. cbn [AMT_PROTOCOL_PORT_MAP getitem].
    destruct (String.eqb_spec "http" protocol) as [Heq|_];
      [now subst protocol|].
    destruct (String.eqb_spec "https" protocol) as [Heq|_];
      [now subst protocol|].
    reflexivity.
Qed.

Lemma init_result_witness :
  Client.__init__ "amt.example.org" "secret" "admin" "https"
  = Return (Build_Client "https://amt.example.org:16993/wsman"
              "admin" "secret" None None)
  /\ Client.__init__ "amt.example.org" "secret" "admin" "HTTP"
     = Raise (KeyError "HTTP").
Proof.
  split.
  - exact (proj1 (proj2 (init_result "amt.example.org" "secret" "admin"
                           "https")) eq_refl).
  - apply (proj2 (proj2 (init_result "amt.example.org" "secret" "admin"
                           "HTTP"))); discriminate.
Defined.

(** ** The whole trace of a post *)




(** X22.  Nothing ties the two steps of [set_next_boot],
    [pxe_next_boot] and [enable_vnc] together: when the first call of
    [post] has returned and the probe before the second request raises,
    the operation raises that exception with the first request sent and
    the second not. *)
Theorem second_probe_failure {wsman : Wsman} {xpath : ElementPath}
  (env : Env) (self : Client)
  (op : Operation) (p2 : string) (w w1 w2 : World) (code : PyVal)
  (e : Exn) :
  second_payload self op = Some p2 ->
  Client.post env self (first_payload self op) None w
  = Some (Return code, w1) ->
  Client._awaken_amt env self 16 w1 = Some (Raise e, w2) ->
  call env self op w = Some (Raise e, w2)
  /\ sent w w2 = [soap_request self (first_payload self op)].
Proof.
  intros Hop Hfirst Hprobe2. rewrite (call_twice env self op p2 w Hop).
  unfold post_twice. unfold bind at 1. rewrite Hfirst.
  unfold bind at 1. rewrite post_run, Hprobe2. split; [reflexivity|].
  destruct (post_spec env self (first_payload self op) None w)
    as (o1 & w1' & Hrun1 & Hcase).
  rewrite Hfirst in Hrun1. injection Hrun1 as <- <-.
  destruct Hcase as [(e1 & _ & [=] & _)|(wa & _ & Hreq1 & _)].
  destruct (awaken_amt_facts env self 16 w1 _ w2 Hprobe2)
    as (_ & _ & Hreq2 & _ & _).
  apply sent_app. now rewrite Hreq2.
Qed.

Lemma second_probe_failure_witness :
  let env :=
    {| connect_result :=
         fun n => match n with
                  | O => Connected
                  | _ => ConnectError (Some 113)
                  end;
       connect_micros := fun _ => 1000%N;
       oversleep := fun _ => 0%N;
       http_result := fun _ => ok_response "0" |} in
  exists w2,
    Client.set_next_boot env reachable_client "pxe" world0
    = Some (Raise (OSError (Some 113)), w2)
    /\ sent world0 w2
       = [soap_request reachable_client
            (change_boot_order_request (uri reachable_client) "pxe")].
Proof.
  cbv zeta. eexists.
  eapply (second_probe_failure _ reachable_client (SetNextBoot "pxe")).
  - reflexivity.
  - vm_compute. reflexivity.
  - vm_compute. reflexivity.
Defined.

(** ** Integers and their decimal text *)

Lemma digits_step (c : ascii) (k acc : Z) (seen : bool) (r : list ascii) :
  digit_of c = Some k ->
  digits acc seen (c :: r) = digits (10 * acc + k) true r.
Proof. intros H. cbn [digits]. now rewrite H. Qed.

Ltac digit_case IH :=
  cbn [NilEmpty.string_of_uint list_ascii_of_string Pos.of_uint_acc
         Pos.of_uint];
  erewrite digits_step by (vm_compute; reflexivity);
  match goal with
  | |- digits ?v true _ = Some (Z.pos (Pos.of_uint_acc _ ?a)) =>
      replace v with (Z.pos a) by lia
  | |- digits ?v true _ = Some (Z.of_N (N.pos (Pos.of_uint_acc _ ?a))) =>
      replace v with (Z.pos a) by lia
  | |- digits ?v true _ = Some (Z.of_N (Pos.of_uint _)) =>
      replace v with 0 by lia
  end;
  apply IH; now left.

(** The digits of a decimal number, read after an accumulator. *)
Lemma digits_of_uint_acc (d : Decimal.uint) :
  forall (acc : positive) (seen : bool),
    seen = true \/ d <> Decimal.Nil ->
    digits (Z.pos acc) seen
      (list_ascii_of_string (NilEmpty.string_of_uint d))
    = Some (Z.pos (Pos.of_uint_acc d acc)).
Proof.
  induction d; intros acc seen Hseen; [|digit_case IHd ..].
  destruct Hseen as [-> | Hnil]; [reflexivity | now elim Hnil].
Qed.

Lemma digits_of_uint (d : Decimal.uint) :
  forall seen : bool,
    seen = true \/ d <> Decimal.Nil ->
    digits 0 seen (list_ascii_of_string (NilEmpty.string_of_uint d))
    = Some (Z.of_N (Pos.of_uint d)).
Proof.
  induction d; intros seen Hseen;
    [|digit_case IHd | digit_case digits_of_uint_acc ..].
  destruct Hseen as [-> | Hnil]; [reflexivity | now elim Hnil].
Qed.

Lemma uint_chars_no_space (d : Decimal.uint) :
  Forall (fun c => is_space c = false)
    (list_ascii_of_string (NilEmpty.string_of_uint d)).
Proof. induction d; constructor; (reflexivity || assumption). Qed.

Lemma strip_no_space (s : list ascii) :
  Forall (fun c => is_space c = false) s -> strip s = s.
Proof.
  assert (Hl : forall l, Forall (fun c => is_space c = false) l ->
                         lstrip l = l).
  { intros l Hall. destruct Hall as [|c l Hc _]; [reflexivity|].
    cbn [lstrip]. now rewrite Hc. }
  intros Hall. unfold strip. rewrite (Hl s Hall).
  rewrite (Hl (rev s)) by now apply Forall_rev.
  apply rev_involutive.
Qed.

(** [int(str(n)) == n]. *)
Lemma py_int_decimal (n : Z) : py_int (decimal n) = Some n.
Proof.
  unfold decimal, py_int. destruct n as [|q|q]; [reflexivity| |].
  - cbn [Z.to_int NilZero.string_of_int].
    pose proof (DecimalPos.Unsigned.to_uint_nonnil q) as Hnil.
    pose proof (DecimalPos.Unsigned.of_to q) as Hval.
    pose proof (uint_chars_no_space (Pos.to_uint q)) as Hall.
    pose proof (digits_of_uint (Pos.to_uint q) false (or_intror Hnil))
      as Hdigits.
    rewrite Hval in Hdigits.
    destruct (Pos.to_uint q) as [|d|d|d|d|d|d|d|d|d|d]; [contradiction|..];
      cbn [NilZero.string_of_uint];
      rewrite (strip_no_space _ Hall);
      cbn [NilEmpty.string_of_uint list_ascii_of_string] in *;
      exact Hdigits.
  - cbn [Z.to_int NilZero.string_of_int].
    pose proof (DecimalPos.Unsigned.to_uint_nonnil q) as Hnil.
    pose proof (DecimalPos.Unsigned.of_to q) as Hval.
    pose proof (uint_chars_no_space (Pos.to_uint q)) as Hall.
    pose proof (digits_of_uint (Pos.to_uint q) false (or_intror Hnil))
      as Hdigits.
    rewrite Hval in Hdigits.
    assert (Hstr : NilZero.string_of_uint (Pos.to_uint q)
                   = NilEmpty.string_of_uint (Pos.to_uint q))
      by (destruct (Pos.to_uint q); [contradiction | reflexivity ..]).
    rewrite Hstr. cbn [list_ascii_of_string].
    rewrite strip_no_space by (constructor; [reflexivity | exact Hall]).
    rewrite Hdigits. reflexivity.
Qed.

(** X23.  [_return_value] reads every integer back from its decimal
    text: for a namespace [ns] whose qualified name [{ns}ReturnValue]
    ElementPath compares literally, when the first proper descendant
    named [ReturnValue] under [ns] has the text [str(n)], the result is
    [n], for every integer [n], negative ones included. *)
Theorem return_value_of_decimal {xpath : ElementPath} (root : Element)
  (ns : string) (e : Element) (n : Z) :
  literal_tag (qname ns "ReturnValue") = true ->
  first_named ns "ReturnValue" root = Some e ->
  text e = Some (decimal n) ->
  _return_value (Xml root) ns = Return n.
Proof.
  intros Hlit Hfirst Htext. unfold _return_value. cbn [fromstring].
  now rewrite (find_first_named _ _ _ Hlit), Hfirst, Htext, py_int_decimal.
Qed.

Lemma return_value_of_decimal_witness :
  literal_tag (qname "urn:pm" "ReturnValue") = true
  /\ _return_value (Xml (return_value_doc "urn:pm" "-4096")) "urn:pm"
     = Return (-4096).
Proof.
  split; [reflexivity|].
  eapply (return_value_of_decimal _ "urn:pm" _ (-4096)); reflexivity.
Defined.
